(** * The configuration validator of scripts/validate_config.py

    A shallow embedding of [ConfigValidator] and of [main], and the
    properties of the validation engine proved on it.

    Conventions of the embedding.
    - A parsed document is what [toml.load] returns: a dict from string keys
      to values, kept as an association list in insertion order (Python
      dicts iterate in that order); the keys of a dict are pairwise distinct.
    - [self.issues] is threaded explicitly: a method is a function from the
      issue list before the call to the issue list after it, or to the
      exception it raises.
    - Strings are byte strings (UTF-8); [in], [startswith] and [==] on them
      agree with Python's.  The character classes of [SIZE_PATTERN] are
      taken on their ASCII members, and [repr] escapes the ASCII
      characters that are not printable and copies the bytes beyond ASCII:
      both are exact on the ASCII texts ([Spec.ascii_text]).
    - [str] and [repr] of an integer give its decimal text; Python raises
      [ValueError] instead for an integer of more than 4300 digits, so
      both are exact on the values of [Spec.printable].  The properties
      that depend on the text of a value or on the pattern say on which
      values they hold ([Spec.ascii_text], [Spec.printable], [Spec.plain]).
    - A float is a binary64 number; the text [repr] prints for it is kept
      beside the number and not recomputed.  A date or time value is kept
      as the two texts [str] and [repr] print for it.
    - A Python set of strings iterates in an order fixed per process (by
      the hash seed): the methods that iterate over a set take that order
      as the parameter [set_order], from the elements as the source lists
      them to the order of iteration. *)

From Stdlib Require Import ZArith List String Ascii Bool Lia Permutation FinFun.
From Stdlib Require Import DecimalString Floats.
Import ListNotations.

#[local] Set Warnings "-register-all".

Local Open Scope string_scope.
Local Open Scope list_scope.
Local Open Scope Z_scope.

(** ** Strings *)

Module Str.

(** [s.startswith(p)] *)
Fixpoint startswith (p s : string) : bool :=
  match p, s with
  | EmptyString, _ => true
  | String a p', String b s' => Ascii.eqb a b && startswith p' s'
  | String _ _, EmptyString => false
  end.

(** [p in s] on two strings: [p] occurs in [s] as a contiguous run. *)
Fixpoint contains (p s : string) : bool :=
  startswith p s ||
  match s with
  | EmptyString => false
  | String _ s' => contains p s'
  end.

(** [sep.join(l)] *)
Fixpoint join (sep : string) (l : list string) : string :=
  match l with
  | [] => ""
  | [x] => x
  | x :: rest => x ++ sep ++ join sep rest
  end.

Fixpoint has_char (c : ascii) (s : string) : bool :=
  match s with
  | EmptyString => false
  | String a s' => Ascii.eqb a c || has_char c s'
  end.

(** Membership of a string in a list of strings. *)
Definition mem (x : string) (l : list string) : bool :=
  existsb (String.eqb x) l.

(** The decimal text of an integer, as [str] gives it. *)
Definition of_Z (n : Z) : string := NilZero.string_of_int (Z.to_int n).

Definition hex_digit (n : nat) : ascii :=
  nth n (list_ascii_of_string "0123456789abcdef") "0"%char.

Definition dquote : ascii := ascii_of_nat 34.
Definition squote : ascii := ascii_of_nat 39.
Definition backslash : ascii := ascii_of_nat 92.

Definition char (c : ascii) : string := String c EmptyString.

(** One character of a string inside [repr]'s quotes [q]. *)
Definition repr_char (q c : ascii) : string :=
  let n := nat_of_ascii c in
  if Ascii.eqb c backslash then String backslash (char backslash)
  else if Ascii.eqb c q then String backslash (char q)
  else if Nat.eqb n 10 then String backslash "n"
  else if Nat.eqb n 13 then String backslash "r"
  else if Nat.eqb n 9 then String backslash "t"
  else if Nat.ltb n 32 || Nat.eqb n 127
       then String backslash
              (String "x" (String (hex_digit (Nat.div n 16)) (char (hex_digit (Nat.modulo n 16)))))
  else char c.

Fixpoint repr_body (q : ascii) (s : string) : string :=
  match s with
  | EmptyString => ""
  | String c s' => repr_char q c ++ repr_body q s'
  end.

(** [repr(s)] of an ASCII text: single quotes, unless the string holds a
    single quote and no double quote. *)
Definition repr (s : string) : string :=
  let q := if has_char squote s && negb (has_char dquote s) then dquote else squote in
  String q (repr_body q s ++ char q).

End Str.

(** ** Python values and the builtins the validator calls *)

Module Py.

(** A float with the text [repr] prints for it. *)
Record pyfloat : Type := PyFloat { float_val : float; float_repr : string }.

(** A [datetime.datetime], [datetime.date] or [datetime.time]. *)
Record pydatetime : Type := PyDatetime { dt_str : string; dt_repr : string }.

(** What [toml.load] puts in a document. *)
Inductive value : Type :=
| VStr (s : string)
| VInt (n : Z)
| VFloat (f : pyfloat)
| VBool (b : bool)
| VDatetime (d : pydatetime)
| VList (elems : list value)
| VDict (entries : list (string * value)).

Definition dict : Type := list (string * value).

Inductive exn : Type := TypeError | AttributeError | KeyError.

Inductive result (A : Type) : Type :=
| Ok (a : A)
| Raise (e : exn).
Arguments Ok {A} a.
Arguments Raise {A} e.

(** The keys of a dict, in iteration order. *)
Definition keys (d : dict) : list string := map fst d.

(** The value under a key, if the dict has the key. *)
Fixpoint lookup (k : string) (d : dict) : option value :=
  match d with
  | [] => None
  | (k', v) :: d' => if String.eqb k k' then Some v else lookup k d'
  end.

Definition has_key (k : string) (d : dict) : bool :=
  match lookup k d with Some _ => true | None => false end.

(** [needle == v] for a string [needle]. *)
Definition eq_str (needle : string) (v : value) : bool :=
  match v with
  | VStr s => String.eqb needle s
  | _ => false
  end.

(** [needle in x]: key of a dict, substring of a string, element of a list;
    a number, boolean or date is not iterable. *)
Definition contains (needle : string) (x : value) : result bool :=
  match x with
  | VDict d => Ok (has_key needle d)
  | VStr s => Ok (Str.contains needle s)
  | VList l => Ok (existsb (eq_str needle) l)
  | _ => Raise TypeError
  end.

(** [x[k]] for a string [k]. *)
Definition getitem (x : value) (k : string) : result value :=
  match x with
  | VDict d => match lookup k d with Some v => Ok v | None => Raise KeyError end
  | _ => Raise TypeError
  end.

(** [x.items()] *)
Definition items (x : value) : result (list (string * value)) :=
  match x with
  | VDict d => Ok d
  | _ => Raise AttributeError
  end.

(** [x.get(k)], [None] when the key is absent. *)
Definition get (x : value) (k : string) : result (option value) :=
  match x with
  | VDict d => Ok (lookup k d)
  | _ => Raise AttributeError
  end.

(** [x.get(k, default)] *)
Definition get_default (x : value) (k : string) (default : value) : result value :=
  match x with
  | VDict d => Ok (match lookup k d with Some v => v | None => default end)
  | _ => Raise AttributeError
  end.

(** [x.startswith(prefixes)] for a tuple of prefixes. *)
Definition startswith_any (x : value) (prefixes : list string) : result bool :=
  match x with
  | VStr s => Ok (existsb (fun p => Str.startswith p s) prefixes)
  | _ => Raise AttributeError
  end.

(** [x in S] for a set of strings [S]: a list or dict cannot be hashed. *)
Definition in_set (x : value) (S : list string) : result bool :=
  match x with
  | VStr s => Ok (Str.mem s S)
  | VList _ | VDict _ => Raise TypeError
  | _ => Ok false
  end.

(** Truth value of [x] in a condition. *)
Definition truthy (x : value) : bool :=
  match x with
  | VStr s => negb (String.eqb s "")
  | VInt n => negb (Z.eqb n 0)
  | VFloat f => negb (PrimFloat.eqb (float_val f) 0%float)
  | VBool b => b
  | VDatetime _ => true
  | VList l => match l with [] => false | _ => true end
  | VDict d => match d with [] => false | _ => true end
  end.

(** Truth value of the result of [x.get(k)]. *)
Definition truthy_opt (x : option value) : bool :=
  match x with Some v => truthy v | None => false end.

(** [isinstance(x, int)]: [bool] is a subclass of [int]. *)
Definition isinstance_int (x : value) : bool :=
  match x with VInt _ | VBool _ => true | _ => false end.

(** [isinstance(x, (int, float))] *)
Definition isinstance_int_float (x : value) : bool :=
  match x with VInt _ | VBool _ | VFloat _ => true | _ => false end.

Definition isinstance_bool (x : value) : bool :=
  match x with VBool _ => true | _ => false end.

Definition isinstance_list (x : value) : bool :=
  match x with VList _ => true | _ => false end.

Definition isinstance_str (x : value) : bool :=
  match x with VStr _ => true | _ => false end.

(** The integer an [int] instance stands for: [True] is 1, [False] is 0. *)
Definition int_of (x : value) : Z :=
  match x with
  | VInt n => n
  | VBool b => Z.b2z b
  | _ => 0
  end.

(** [n < f] and [f < n] for an integer and a float: Python compares the
    two numbers exactly, without rounding the integer. *)
Definition Z_ltb_float (n : Z) (f : float) : bool :=
  match Prim2SF f with
  | S754_zero _ => n <? 0
  | S754_infinity s => negb s
  | S754_nan => false
  | S754_finite s m e =>
      let fm := if s then Z.neg m else Z.pos m in
      if 0 <=? e then n <? fm * 2 ^ e else n * 2 ^ (- e) <? fm
  end.

Definition float_ltb_Z (f : float) (n : Z) : bool :=
  match Prim2SF f with
  | S754_zero _ => 0 <? n
  | S754_infinity s => s
  | S754_nan => false
  | S754_finite s m e =>
      let fm := if s then Z.neg m else Z.pos m in
      if 0 <=? e then fm * 2 ^ e <? n else fm <? n * 2 ^ (- e)
  end.

(** [x < f] and [x > f] for an instance [x] of [int] or [float]. *)
Definition lt_float (x : value) (f : float) : bool :=
  match x with
  | VFloat g => PrimFloat.ltb (float_val g) f
  | _ => Z_ltb_float (int_of x) f
  end.

Definition gt_float (x : value) (f : float) : bool :=
  match x with
  | VFloat g => PrimFloat.ltb f (float_val g)
  | _ => float_ltb_Z f (int_of x)
  end.

(** [repr(x)] and [str(x)]; they differ on strings and dates only. The
    text is the one Python gives when every integer in [x] has at most
    4300 digits and every string that [repr] quotes is an ASCII text. *)
Fixpoint repr (x : value) : string :=
  match x with
  | VStr s => Str.repr s
  | VInt n => Str.of_Z n
  | VFloat f => float_repr f
  | VBool b => if b then "True" else "False"
  | VDatetime d => dt_repr d
  | VList l => "[" ++ Str.join ", " (map repr l) ++ "]"
  | VDict d =>
      "{"
        ++ Str.join ", "
             (map (fun kv => (Str.repr (fst kv) ++ ": " ++ repr (snd kv))%string) d)
        ++ "}"
  end.

Definition str (x : value) : string :=
  match x with
  | VStr s => s
  | VDatetime d => dt_str d
  | _ => repr x
  end.

End Py.


(** ** Paths and JSON text *)

Module Pathlib.

(** A POSIX path: its root ([""], ["/"] or ["//"]) and its components. *)
Record Path : Type := MkPath { root : string; parts : list string }.

Fixpoint split (sep : ascii) (s : string) : list string :=
  match s with
  | EmptyString => [""]
  | String c s' =>
      if Ascii.eqb c sep then "" :: split sep s'
      else match split sep s' with
           | x :: rest => String c x :: rest
           | [] => [String c ""]
           end
  end.

Definition root_of (s : string) : string :=
  if Str.startswith "//" s && negb (Str.startswith "///" s) then "//"
  else if Str.startswith "/" s then "/"
  else "".

Definition component (p : string) : bool :=
  negb (String.eqb p "" || String.eqb p ".").

(** [Path(s)] *)
Definition Path_ (s : string) : Path :=
  MkPath (root_of s) (filter component (split "/" s)).

(** [p / s] *)
Definition joinpath (p : Path) (s : string) : Path :=
  let q := Path_ s in
  if String.eqb (root q) "" then MkPath (root p) (parts p ++ parts q) else q.

(** [str(p)] *)
Definition str (p : Path) : string :=
  match root p, parts p with
  | EmptyString, [] => "."
  | r, ps => r ++ Str.join "/" ps
  end.

End Pathlib.

Module Json.

Inductive json : Type :=
| JStr (s : string)
| JInt (n : Z)
| JList (elems : list json)
| JObj (members : list (string * json)).

Definition newline : string := Str.char (ascii_of_nat 10).

(** One character of a JSON string with [ensure_ascii]; the model covers
    ASCII text. *)
Definition escape_char (c : ascii) : string :=
  let n := nat_of_ascii c in
  if Ascii.eqb c Str.dquote then String Str.backslash (Str.char Str.dquote)
  else if Ascii.eqb c Str.backslash then String Str.backslash (Str.char Str.backslash)
  else if Nat.eqb n 10 then String Str.backslash "n"
  else if Nat.eqb n 13 then String Str.backslash "r"
  else if Nat.eqb n 9 then String Str.backslash "t"
  else if Nat.eqb n 8 then String Str.backslash "b"
  else if Nat.eqb n 12 then String Str.backslash "f"
  else if Nat.ltb n 32 || Nat.leb 127 n
       then String Str.backslash
              ("u00" ++ String (Str.hex_digit (Nat.div n 16))
                          (Str.char (Str.hex_digit (Nat.modulo n 16))))
  else Str.char c.

Fixpoint escape (s : string) : string :=
  match s with
  | EmptyString => ""
  | String c s' => escape_char c ++ escape s'
  end.

Definition quote (s : string) : string :=
  String Str.dquote (escape s ++ Str.char Str.dquote).

Fixpoint spaces (n : nat) : string :=
  match n with
  | O => ""
  | S n' => " " ++ spaces n'
  end.

(** [json.dumps(j, indent=2)] at nesting depth [depth]. *)
Fixpoint dumps (depth : nat) (j : json) : string :=
  let inner := (newline ++ spaces (2 * S depth))%string in
  let outer := (newline ++ spaces (2 * depth))%string in
  match j with
  | JStr s => quote s
  | JInt n => Str.of_Z n
  | JList [] => "[]"
  | JList l =>
      "[" ++ inner ++ Str.join ("," ++ inner) (map (dumps (S depth)) l) ++ outer ++ "]"
  | JObj [] => "{}"
  | JObj m =>
      "{" ++ inner
        ++ Str.join ("," ++ inner)
             (map (fun kv => (quote (fst kv) ++ ": " ++ dumps (S depth) (snd kv))%string) m)
        ++ outer ++ "}"
  end.

End Json.

(** ** Issues and the validator's methods *)

Inductive ValidationLevel : Type := ERROR | WARNING | INFO.

Record ValidationIssue : Type := Issue {
  level : ValidationLevel;
  path : string;
  message : string
}.

Definition is_error (i : ValidationIssue) : bool :=
  match level i with ERROR => true | _ => false end.

Definition is_warning (i : ValidationIssue) : bool :=
  match level i with WARNING => true | _ => false end.

Definition is_info (i : ValidationIssue) : bool :=
  match level i with INFO => true | _ => false end.

(** A method of the validator: it reads and extends [self.issues], and
    returns a value or raises. *)
Module Method.
Import Py.

Definition M (A : Type) : Type :=
  list ValidationIssue -> result (A * list ValidationIssue).

Definition ret {A} (a : A) : M A := fun issues => Ok (a, issues).

Definition bind {A B} (m : M A) (k : A -> M B) : M B :=
  fun issues =>
    match m issues with
    | Ok (a, issues') => k a issues'
    | Raise e => Raise e
    end.

(** An expression that touches no issue. *)
Definition lift {A} (r : result A) : M A :=
  fun issues =>
    match r with
    | Ok a => Ok (a, issues)
    | Raise e => Raise e
    end.

(** [self.issues] *)
Definition get_issues : M (list ValidationIssue) :=
  fun issues => Ok (issues, issues).

(** [self.issues.append(i)] *)
Definition append (i : ValidationIssue) : M unit :=
  fun issues => Ok (tt, issues ++ [i]).

Declare Scope method_scope.
Delimit Scope method_scope with method.
Notation "x <- m ;; k" := (bind m (fun x => k))
  (at level 61, m at next level, right associativity) : method_scope.
Notation "m ;; k" := (bind m (fun _ => k))
  (at level 61, right associativity) : method_scope.
Local Open Scope method_scope.

(** [if b: body] *)
Definition when_ (b : bool) (body : M unit) : M unit :=
  if b then body else ret tt.

(** [for x in l: body] *)
Fixpoint for_each {A} (l : list A) (body : A -> M unit) : M unit :=
  match l with
  | [] => ret tt
  | x :: rest => body x ;; for_each rest body
  end.

(** [if k in d: body(d[k])] *)
Definition if_present (k : string) (d : value) (body : value -> M unit) : M unit :=
  present <- lift (contains k d) ;;
  when_ present (v <- lift (getitem d k) ;; body v).

(** A call on a validator whose [issues] is the empty list. *)
Definition run {A} (m : M A) : result (A * list ValidationIssue) := m [].

End Method.

(** [SIZE_PATTERN.match]: the pattern
    [^\d+(\.\d+)?\s*(B|KB?|MB?|GB?)?$] with [re.IGNORECASE], on an ASCII
    text. *)
Module SizePattern.

Definition is_digit (c : ascii) : bool :=
  let n := nat_of_ascii c in Nat.leb 48 n && Nat.leb n 57.

Definition is_space (c : ascii) : bool :=
  let n := nat_of_ascii c in
  (Nat.leb 9 n && Nat.leb n 13) || (Nat.leb 28 n && Nat.leb n 32).

Definition is_letter (up low c : ascii) : bool :=
  Ascii.eqb c up || Ascii.eqb c low.

Fixpoint skip (p : ascii -> bool) (s : string) : string :=
  match s with
  | String c s' => if p c then skip p s' else s
  | EmptyString => s
  end.

(** [\d+]: what is left after the digits, if there is at least one. *)
Definition digits (s : string) : option string :=
  match s with
  | String c s' => if is_digit c then Some (skip is_digit s') else None
  | EmptyString => None
  end.

(** [(\.\d+)?] *)
Definition fraction (s : string) : string :=
  match s with
  | String c s' =>
      if Ascii.eqb c "."%char
      then match digits s' with Some rest => rest | None => s end
      else s
  | EmptyString => s
  end.

(** [(B|KB?|MB?|GB?)?] *)
Definition unit_ (s : string) : string :=
  match s with
  | String c s' =>
      if is_letter "B" "b" c then s'
      else if is_letter "K" "k" c || is_letter "M" "m" c || is_letter "G" "g" c
      then match s' with
           | String c' s'' => if is_letter "B" "b" c' then s'' else s'
           | EmptyString => s'
           end
      else s
  | EmptyString => s
  end.

(** [$]: the end, or the newline that ends the string. *)
Definition at_end (s : string) : bool :=
  match s with
  | EmptyString => true
  | String c EmptyString => Nat.eqb (nat_of_ascii c) 10
  | _ => false
  end.

Definition match_ (s : string) : bool :=
  match digits s with
  | Some rest => at_end (unit_ (skip is_space (fraction rest)))
  | None => false
  end.

End SizePattern.

Module ConfigValidator.
Import Py Method.
Local Open Scope method_scope.

Definition VALID_MODELS : list string :=
  ["gemini-1.5-flash"; "gemini-1.5-pro"; "gemini-2.0-flash-exp"; "gemini-pro";
   "gemini-pro-vision"].

Definition VALID_LOG_LEVELS : list string := ["error"; "warn"; "info"; "debug"; "trace"].

Definition VALID_LOG_FORMATS : list string := ["json"; "pretty"; "compact"].

Definition VALID_THEMES : list string := ["default"; "minimal"; "solarized"; "dracula"].

Definition VALID_SPINNER_STYLES : list string := ["dots"; "line"; "simple"].

Definition DANGEROUS_COMMANDS : list string :=
  ["rm"; "dd"; "mkfs"; "fdisk"; "shred"; "chmod"; "chown"; ">"; ">>"; "|"].

(** The float literals of the source, each with the text it prints as. *)
Definition f0_1 : pyfloat := PyFloat 0x1.999999999999ap-4%float "0.1".
Definition f60_0 : pyfloat := PyFloat 60%float "60.0".
Definition f0_0 : pyfloat := PyFloat 0%float "0.0".
Definition f2_0 : pyfloat := PyFloat 2%float "2.0".

(** *** Helper methods *)

Definition add_error (path message : string) : M unit :=
  append (Issue ERROR path message).

Definition add_warning (path message : string) : M unit :=
  append (Issue WARNING path message).

Definition add_info (path message : string) : M unit :=
  append (Issue INFO path message).

Definition validate_integer_range (path : string) (value : value) (min_val max_val : Z)
  : M unit :=
  if negb (isinstance_int value) then
    add_error path "Must be an integer"
  else if (int_of value <? min_val) || (int_of value >? max_val) then
    add_error path ("Must be between " ++ Str.of_Z min_val ++ " and " ++ Str.of_Z max_val)
  else ret tt.

Definition validate_float_range (path : string) (value : value) (min_val max_val : pyfloat)
  : M unit :=
  if negb (isinstance_int_float value) then
    add_error path "Must be a number"
  else if lt_float value (float_val min_val) || gt_float value (float_val max_val) then
    add_error path ("Must be between " ++ float_repr min_val ++ " and " ++ float_repr max_val)
  else ret tt.

Definition validate_boolean (path : string) (value : value) : M unit :=
  when_ (negb (isinstance_bool value)) (add_error path "Must be true or false").

Definition is_valid_url (url : value) : result bool :=
  startswith_any url ["http://"; "https://"].

Definition is_valid_size (size : value) : bool :=
  SizePattern.match_ (str size).

(** *** Section routines *)

Section SetOrder.

(** The order in which the process iterates over a set of strings, given
    the elements as the source lists them. *)
Variable set_order : list string -> list string.

Definition validate_api (api : value) : M unit :=
  has_api_key <- lift (contains "api_key" api) ;;
  when_ has_api_key
    (add_warning "api.api_key"
       "API key should not be stored in config file. Use GEMINI_API_KEY environment variable.") ;;
  if_present "model" api (fun model =>
    known <- lift (in_set model VALID_MODELS) ;;
    when_ (negb known)
      (add_error "api.model"
         ("Invalid model: " ++ str model ++ ". Valid models: "
            ++ Str.join ", " (set_order VALID_MODELS)))) ;;
  if_present "base_url" api (fun base_url =>
    valid <- lift (is_valid_url base_url) ;;
    when_ (negb valid) (add_error "api.base_url" "Invalid URL format")) ;;
  if_present "timeout" api (fun timeout =>
    validate_integer_range "api.timeout" timeout 1 300) ;;
  if_present "max_retries" api (fun max_retries =>
    validate_integer_range "api.max_retries" max_retries 0 10) ;;
  if_present "retry_delay" api (fun retry_delay =>
    validate_float_range "api.retry_delay" retry_delay f0_1 f60_0).

(** [for field in bool_fields: if field in table:
    self.validate_boolean(f"{section}.{field}", table[field])] *)
Definition validate_bool_fields (section : string) (bool_fields : list string) (table : value)
  : M unit :=
  for_each bool_fields (fun field =>
    if_present field table (fun v => validate_boolean (section ++ "." ++ field) v)).

Definition validate_repl (repl : value) : M unit :=
  if_present "history_size" repl (fun history_size =>
    validate_integer_range "repl.history_size" history_size 0 100000) ;;
  if_present "auto_save_interval" repl (fun auto_save_interval =>
    validate_integer_range "repl.auto_save_interval" auto_save_interval 0 3600) ;;
  validate_bool_fields "repl"
    ["colored_prompt"; "welcome_banner"; "vi_mode"; "multiline_mode"] repl.

Definition validate_logging (logging : value) : M unit :=
  if_present "level" logging (fun level =>
    known <- lift (in_set level VALID_LOG_LEVELS) ;;
    when_ (negb known)
      (add_error "logging.level"
         ("Invalid log level: " ++ str level ++ ". Valid levels: "
            ++ Str.join ", " (set_order VALID_LOG_LEVELS)))) ;;
  if_present "format" logging (fun format =>
    known <- lift (in_set format VALID_LOG_FORMATS) ;;
    when_ (negb known)
      (add_error "logging.format"
         ("Invalid log format: " ++ str format ++ ". Valid formats: "
            ++ Str.join ", " (set_order VALID_LOG_FORMATS)))) ;;
  if_present "max_file_size" logging (fun max_file_size =>
    when_ (negb (is_valid_size max_file_size))
      (add_error "logging.max_file_size" "Invalid size format. Use: 10MB, 1GB, etc.")) ;;
  if_present "max_files" logging (fun max_files =>
    validate_integer_range "logging.max_files" max_files 1 100).

Definition validate_tools_commands (commands : value) : M unit :=
  if_present "timeout" commands (fun timeout =>
    validate_integer_range "tools.commands.timeout" timeout 1 300) ;;
  if_present "allowed_commands" commands (fun allowed_commands =>
    match allowed_commands with
    | VList cmds =>
        for_each cmds (fun cmd =>
          for_each (set_order DANGEROUS_COMMANDS) (fun dangerous =>
            found <- lift (contains dangerous cmd) ;;
            when_ found
              (add_warning "tools.commands.allowed_commands"
                 ("Potentially dangerous command: " ++ str cmd))))
    | _ => add_error "tools.commands.allowed_commands" "Must be an array of strings"
    end).

(** [not isinstance(ext, str) or not ext.startswith(".")] *)
Definition bad_extension (ext : value) : bool :=
  match ext with
  | VStr s => negb (Str.startswith "." s)
  | _ => true
  end.

Definition validate_tools (tools : value) : M unit :=
  if_present "max_file_size" tools (fun max_file_size =>
    when_ (negb (is_valid_size max_file_size))
      (add_error "tools.max_file_size" "Invalid size format")) ;;
  if_present "allowed_extensions" tools (fun allowed_extensions =>
    match allowed_extensions with
    | VList exts =>
        for_each exts (fun ext =>
          when_ (bad_extension ext)
            (add_error "tools.allowed_extensions"
               ("Invalid extension format: " ++ str ext ++ ". Must start with '.'")))
    | _ => add_error "tools.allowed_extensions" "Must be an array of strings"
    end) ;;
  if_present "commands" tools validate_tools_commands.

Definition validate_session (session : value) : M unit :=
  if_present "max_context_size" session (fun max_context_size =>
    validate_integer_range "session.max_context_size" max_context_size 1000 1000000) ;;
  if_present "prune_strategy" session (fun prune_strategy =>
    let valid_strategies := ["oldest"; "summarize"; "smart"] in
    known <- lift (in_set prune_strategy valid_strategies) ;;
    when_ (negb known)
      (add_error "session.prune_strategy"
         ("Invalid strategy. Valid: " ++ Str.join ", " (set_order valid_strategies)))).

Definition validate_ui (ui : value) : M unit :=
  if_present "theme" ui (fun theme =>
    known <- lift (in_set theme VALID_THEMES) ;;
    when_ (negb known)
      (add_warning "ui.theme"
         ("Unknown theme: " ++ str theme ++ ". Valid themes: "
            ++ Str.join ", " (set_order VALID_THEMES)))) ;;
  if_present "spinner_style" ui (fun spinner_style =>
    known <- lift (in_set spinner_style VALID_SPINNER_STYLES) ;;
    when_ (negb known)
      (add_error "ui.spinner_style"
         ("Invalid spinner style. Valid: " ++ Str.join ", " (set_order VALID_SPINNER_STYLES)))) ;;
  if_present "max_width" ui (fun max_width =>
    validate_integer_range "ui.max_width" max_width 40 200).

Definition validate_response (response : value) : M unit :=
  if_present "temperature" response (fun temperature =>
    validate_float_range "response.temperature" temperature f0_0 f2_0) ;;
  if_present "max_tokens" response (fun max_tokens =>
    validate_integer_range "response.max_tokens" max_tokens 1 100000) ;;
  if_present "format" response (fun format =>
    let valid_formats := ["auto"; "plain"; "markdown"; "json"] in
    known <- lift (in_set format valid_formats) ;;
    when_ (negb known)
      (add_error "response.format"
         ("Invalid format. Valid: " ++ Str.join ", " (set_order valid_formats)))).

Definition validate_network (network : value) : M unit :=
  if_present "proxy_url" network (fun proxy_url =>
    valid <- lift (is_valid_url proxy_url) ;;
    when_ (negb valid) (add_error "network.proxy_url" "Invalid proxy URL")) ;;
  if_present "timeout_connect" network (fun timeout_connect =>
    validate_integer_range "network.timeout_connect" timeout_connect 1 60) ;;
  if_present "timeout_read" network (fun timeout_read =>
    validate_integer_range "network.timeout_read" timeout_read 1 300).

Definition validate_security (security : value) : M unit :=
  validate_bool_fields "security"
    ["mask_api_key"; "audit_tools"; "validate_ssl"; "sanitize_logs"] security.

Definition validate_debug (debug : value) : M unit :=
  validate_bool_fields "debug"
    ["show_raw_api_calls"; "save_recordings"; "verbose_errors"] debug ;;
  if_present "mock_delay_ms" debug (fun mock_delay_ms =>
    validate_integer_range "debug.mock_delay_ms" mock_delay_ms 0 5000).

Definition validate_aliases (aliases : value) : M unit :=
  entries <- lift (items aliases) ;;
  for_each entries (fun '(alias, command) =>
    when_ (negb (isinstance_str command))
      (add_error ("aliases." ++ alias) "Alias target must be a string")).

Definition validate_models (models : value) : M unit :=
  entries <- lift (items models) ;;
  for_each entries (fun '(model_name, config) =>
    if_present "temperature" config (fun temperature =>
      validate_float_range ("models." ++ model_name ++ ".temperature") temperature f0_0 f2_0) ;;
    if_present "max_tokens" config (fun max_tokens =>
      validate_integer_range ("models." ++ model_name ++ ".max_tokens") max_tokens 1 100000)).

Definition validate_prompts (prompts : value) : M unit :=
  entries <- lift (items prompts) ;;
  for_each entries (fun '(name, prompt) =>
    when_ (negb (isinstance_str prompt))
      (add_error ("prompts." ++ name) "Prompt must be a string")).

Definition validate_features (features : value) : M unit :=
  entries <- lift (items features) ;;
  for_each entries (fun '(feature, enabled) =>
    validate_boolean ("features." ++ feature) enabled).

(** *** The engine *)

Definition valid_tables : list string :=
  ["api"; "repl"; "logging"; "tools"; "session"; "ui"; "response"; "network";
   "security"; "debug"; "aliases"; "models"; "prompts"; "features"].

Definition validate_structure (config : dict) : M unit :=
  for_each (keys config) (fun key =>
    when_ (negb (Str.mem key valid_tables))
      (add_warning "" ("Unknown top-level table: " ++ key))).

Definition cross_validate (config : dict) : M unit :=
  logging <- lift (get_default (VDict config) "logging" (VDict [])) ;;
  log_requests <- lift (get_default logging "log_requests" (VBool false)) ;;
  when_ (truthy log_requests)
    (logging <- lift (get_default (VDict config) "logging" (VDict [])) ;;
     file <- lift (get logging "file") ;;
     when_ (negb (truthy_opt file))
       (add_warning "logging" "log_requests is true but no log file specified")) ;;
  session <- lift (get_default (VDict config) "session" (VDict [])) ;;
  auto_save <- lift (get_default session "auto_save" (VBool false)) ;;
  when_ (truthy auto_save)
    (session <- lift (get_default (VDict config) "session" (VDict [])) ;;
     default_dir <- lift (get session "default_dir") ;;
     when_ (negb (truthy_opt default_dir))
       (add_warning "session" "auto_save is true but no default_dir specified")).

(** What the file system and [toml.load] give for a path. *)
Inductive load_result : Type :=
| NotFound                      (* [config_path.exists()] is false *)
| TomlDecodeError (e : string)  (* [toml.load] raises [TomlDecodeError], printed as [e] *)
| OtherException (e : string)   (* [open] or [toml.load] raises another [Exception] *)
| Loaded (config : dict).

Definition filesystem : Type := string -> load_result.

(** [validate_file(config_path)]: it starts from [self.issues = []] and
    returns the verdict with [self.issues]. *)
Definition validate_file (fs : filesystem) (config_path : Pathlib.Path)
  : result (bool * list ValidationIssue) :=
  run
    match fs (Pathlib.str config_path) with
    | NotFound =>
        add_error "" ("Configuration file not found: " ++ Pathlib.str config_path) ;;
        ret false
    | TomlDecodeError e =>
        add_error "" ("Invalid TOML syntax: " ++ e) ;;
        ret false
    | OtherException e =>
        add_error "" ("Error reading file: " ++ e) ;;
        ret false
    | Loaded config =>
        validate_structure config ;;
        if_present "api" (VDict config) validate_api ;;
        if_present "repl" (VDict config) validate_repl ;;
        if_present "logging" (VDict config) validate_logging ;;
        if_present "tools" (VDict config) validate_tools ;;
        if_present "session" (VDict config) validate_session ;;
        if_present "ui" (VDict config) validate_ui ;;
        if_present "response" (VDict config) validate_response ;;
        if_present "network" (VDict config) validate_network ;;
        if_present "security" (VDict config) validate_security ;;
        if_present "debug" (VDict config) validate_debug ;;
        if_present "aliases" (VDict config) validate_aliases ;;
        if_present "models" (VDict config) validate_models ;;
        if_present "prompts" (VDict config) validate_prompts ;;
        if_present "features" (VDict config) validate_features ;;
        cross_validate config ;;
        issues <- get_issues ;;
        let has_errors := existsb is_error issues in
        ret (negb has_errors)
    end.

End SetOrder.

End ConfigValidator.

(** ** The command line *)

Module Cli.
Import Py Method ConfigValidator.

(** What [main] reads of its process: the arguments, the home directory,
    the files, and the iteration order of sets of strings. *)
Record process : Type := Process {
  argv : list string;
  home : string;
  files : filesystem;
  set_order : list string -> list string
}.

(** The schema object the [--generate-schema] branch builds. *)
Definition schema (set_order : list string -> list string) : Json.json :=
  Json.JObj
    [("$schema", Json.JStr "http://json-schema.org/draft-07/schema#");
     ("type", Json.JStr "object");
     ("properties", Json.JObj
        [("api", Json.JObj
           [("type", Json.JStr "object");
            ("properties", Json.JObj
               [("model", Json.JObj
                   [("type", Json.JStr "string");
                    ("enum", Json.JList (map Json.JStr (set_order VALID_MODELS)))]);
                ("timeout", Json.JObj
                   [("type", Json.JStr "integer");
                    ("minimum", Json.JInt 1);
                    ("maximum", Json.JInt 300)])])])])].

Definition issue_line (tag : string) (issue : ValidationIssue) : string :=
  tag ++ path issue ++ ": " ++ message issue.

Definition count (l : list ValidationIssue) : string := Str.of_Z (Z.of_nat (List.length l)).

(** The second half of [main]: validate the file and print the report. *)
Definition validate_and_report (set_order : list string -> list string)
  (fs : filesystem) (config_path : Pathlib.Path) : result (list string * option Z) :=
  match validate_file set_order fs config_path with
  | Raise e => Raise e
  | Ok (is_valid, issues) =>
      match issues with
      | [] => Ok ([("✅ Configuration file is valid: " ++ Pathlib.str config_path)%string], Some 0)
      | _ =>
          let errors := filter is_error issues in
          let warnings := filter is_warning issues in
          let infos := filter is_info issues in
          Ok (map (issue_line "❌ ERROR: ") errors
                ++ map (issue_line "⚠️  WARNING: ") warnings
                ++ map (issue_line "ℹ️  INFO: ") infos
                ++ [(Json.newline ++ "Summary: " ++ count errors ++ " errors, "
                       ++ count warnings ++ " warnings, " ++ count infos
                       ++ " info messages")%string],
              Some (match errors with [] => 0 | _ => 1 end))
      end
  end.

(** [main()]: the lines it prints and the value it returns ([None] for a
    bare [return]), or the exception that escapes it. *)
Definition main (p : process) : result (list string * option Z) :=
  match nth_error (argv p) 1 with
  | Some arg =>
      if String.eqb arg "--generate-schema"
      then Ok ([Json.dumps 0 (schema (set_order p))], None)
      else validate_and_report (set_order p) (files p) (Pathlib.Path_ arg)
  | None =>
      validate_and_report (set_order p) (files p)
        (Pathlib.joinpath (Pathlib.joinpath (Pathlib.Path_ (home p)) ".gemini-repl") "config.toml")
  end.

End Cli.

(** ** Vocabulary of the properties *)

Module Spec.
Import Py Method ConfigValidator.
Local Open Scope method_scope.

(** The TOML type of a value. *)
Inductive kind : Type :=
| String_ | Integer | Float | Boolean | Datetime | Array | Table.

Definition type_of (v : value) : kind :=
  match v with
  | VStr _ => String_
  | VInt _ => Integer
  | VFloat _ => Float
  | VBool _ => Boolean
  | VDatetime _ => Datetime
  | VList _ => Array
  | VDict _ => Table
  end.

(** The issues a method adds to an empty list. *)
Definition output (m : M unit) : result (list ValidationIssue) :=
  match run m with
  | Ok (_, out) => Ok out
  | Raise e => Raise e
  end.

(** [emits P m]: from any issue list, [m] appends what it gives from the
    empty one (or raises as it does there), and every issue it appends
    satisfies [P]. *)
Definition emits (P : ValidationIssue -> Prop) (m : M unit) : Prop :=
  forall issues,
    match m [] with
    | Ok (_, out) => Forall P out /\ m issues = Ok (tt, issues ++ out)
    | Raise e => m issues = Raise e
    end.

(** An iteration order of sets: it lists the elements it is given. *)
Definition iterates (set_order : list string -> list string) : Prop :=
  forall elements, Permutation (set_order elements) elements.

(** The iteration order that follows the source. *)
Definition source_order (elements : list string) : list string := elements.

(** The section routines in the order [validate_file] calls them. *)
Definition sections (set_order : list string -> list string)
  : list (string * (value -> M unit)) :=
  [("api", validate_api set_order); ("repl", validate_repl);
   ("logging", validate_logging set_order); ("tools", validate_tools set_order);
   ("session", validate_session set_order); ("ui", validate_ui set_order);
   ("response", validate_response set_order); ("network", validate_network);
   ("security", validate_security); ("debug", validate_debug);
   ("aliases", validate_aliases); ("models", validate_models);
   ("prompts", validate_prompts); ("features", validate_features)].

(** The call of one section's routine on a document. *)
Definition dispatch (config : dict) (sec : string * (value -> M unit)) : M unit :=
  if_present (fst sec) (VDict config) (snd sec).

(** The three phases of [validate_file] on a parsed document. *)
Definition stages (set_order : list string -> list string) (config : dict)
  : list (M unit) :=
  validate_structure config
    :: map (dispatch config) (sections set_order) ++ [cross_validate config].

(** A document without the top-level key [k]. *)
Definition remove_key (k : string) (config : dict) : dict :=
  filter (fun kv => negb (String.eqb (fst kv) k)) config.

Definition unknown_table (key : string) : ValidationIssue :=
  Issue WARNING "" ("Unknown top-level table: " ++ key).

Definition no_log_file : ValidationIssue :=
  Issue WARNING "logging" "log_requests is true but no log file specified".

Definition no_default_dir : ValidationIssue :=
  Issue WARNING "session" "auto_save is true but no default_dir specified".

(** The warnings the scan of [allowed_commands] gives one command string:
    one for each fragment of [DANGEROUS_COMMANDS] that occurs in it. *)
Definition dangerous_warnings (cmd : string) : list ValidationIssue :=
  map (fun _ => Issue WARNING "tools.commands.allowed_commands"
                  ("Potentially dangerous command: " ++ cmd))
      (filter (fun dangerous => Str.contains dangerous cmd) DANGEROUS_COMMANDS).

(** An issue that names a place in the document. *)
Definition located (i : ValidationIssue) : Prop := path i <> "".

(** [p] occurs in [s]. *)
Definition substring (p s : string) : Prop :=
  exists before after, s = (before ++ p ++ after)%string.


(** The error of a boolean field. *)
Definition not_boolean (path : string) : ValidationIssue :=
  Issue ERROR path "Must be true or false".

(** The issues with a given path. *)
Definition issues_at (p : string) (issues : list ValidationIssue) : list ValidationIssue :=
  filter (fun i => String.eqb (path i) p) issues.

(** The issues of one field of a list of boolean fields. *)
Definition bool_field_issues (section : string) (table : dict) (field : string)
  : list ValidationIssue :=
  match lookup field table with
  | Some v => if isinstance_bool v then [] else [not_boolean (section ++ "." ++ field)]
  | None => []
  end.

(** The range error of an integer field. *)
Definition out_of_range (path : string) (min_val max_val : Z) : ValidationIssue :=
  Issue ERROR path ("Must be between " ++ Str.of_Z min_val ++ " and " ++ Str.of_Z max_val).

(** The loops over [allowed_commands], as [validate_tools_commands] has them. *)
Definition scan (set_order : list string -> list string) (cmds : list value) : M unit :=
  for_each cmds (fun cmd =>
    for_each (set_order DANGEROUS_COMMANDS) (fun dangerous =>
      found <- lift (contains dangerous cmd) ;;
      when_ found
        (add_warning "tools.commands.allowed_commands"
           ("Potentially dangerous command: " ++ str cmd)))).

(** The check of [timeout] in the commands table. *)
Definition timeout_check (commands : dict) : M unit :=
  if_present "timeout" (VDict commands) (fun timeout =>
    validate_integer_range "tools.commands.timeout" timeout 1 300).

(** Example documents. *)
Definition document_with_unknown_key : dict :=
  [("plugins", VDict [("model", VStr "bogus-model")]);
   ("api", VDict [("model", VStr "bogus-model")])].

Definition document_out_of_order : dict :=
  [("session", VDict [("auto_save", VBool true)]);
   ("plugins", VInt 1);
   ("logging", VDict [("max_files", VInt 0)]);
   ("api", VDict [("timeout", VInt 0)])].

(** An issue whose path lies under a section's name. *)
Definition under (name : string) (i : ValidationIssue) : Prop :=
  Str.startswith (name ++ ".") (path i) = true.

(** An issue of a section: its path lies under the section's name and its
    level is ERROR or WARNING. *)
Definition section_issue (name : string) (i : ValidationIssue) : Prop :=
  under name i /\ level i <> INFO.

(** A number, boolean or date: a value that is neither a string nor a
    container. *)
Definition scalar (v : value) : bool :=
  match v with
  | VInt _ | VFloat _ | VBool _ | VDatetime _ => true
  | _ => false
  end.

(** [m] returns from every issue list, appending the same issues. *)
Definition returns (m : M unit) : Prop :=
  exists out, forall issues, m issues = Ok (tt, issues ++ out).

(** The sections whose routines read their table only through [in],
    indexing, [items] and the integer and boolean checks. *)
Definition robust_sections : list string :=
  ["repl"; "security"; "debug"; "aliases"; "prompts"; "features"].

(** A document whose recognized keys are all tables of robust sections. *)
Definition robust_document (config : dict) : bool :=
  forallb (fun name =>
             match lookup name config with
             | None => true
             | Some (VDict _) => Str.mem name robust_sections
             | Some _ => false
             end) valid_tables.

(** The field names each routine of a section with fixed fields reads. *)
Definition known_fields : list (string * list string) :=
  [("api", ["api_key"; "model"; "base_url"; "timeout"; "max_retries"; "retry_delay"]);
   ("repl", ["history_size"; "auto_save_interval"; "colored_prompt"; "welcome_banner";
             "vi_mode"; "multiline_mode"]);
   ("logging", ["level"; "format"; "max_file_size"; "max_files"]);
   ("tools", ["max_file_size"; "allowed_extensions"; "commands"]);
   ("session", ["max_context_size"; "prune_strategy"]);
   ("ui", ["theme"; "spinner_style"; "max_width"]);
   ("response", ["temperature"; "max_tokens"; "format"]);
   ("network", ["proxy_url"; "timeout_connect"; "timeout_read"]);
   ("security", ["mask_api_key"; "audit_tools"; "validate_ssl"; "sanitize_logs"]);
   ("debug", ["show_raw_api_calls"; "save_recordings"; "verbose_errors"; "mock_delay_ms"])].

(** The path [main] validates: its first argument, or the file in the home
    directory. *)
Definition config_path (p : Cli.process) : Pathlib.Path :=
  match nth_error (Cli.argv p) 1 with
  | Some arg => Pathlib.Path_ arg
  | None =>
      Pathlib.joinpath (Pathlib.joinpath (Pathlib.Path_ (Cli.home p)) ".gemini-repl")
        "config.toml"
  end.

(** The line [main] prints for an issue. *)
Definition report_line (i : ValidationIssue) : string :=
  Cli.issue_line
    match level i with
    | ERROR => "❌ ERROR: "
    | WARNING => "⚠️  WARNING: "
    | INFO => "ℹ️  INFO: "
    end i.

(** [m] raises [e] from every issue list. *)
Definition raises (e : exn) (m : M unit) : Prop :=
  forall issues, m issues = Raise e.

(** [m] returns, or raises [e]. *)
Definition may_raise (e : exn) (m : M unit) : Prop :=
  forall issues, (exists issues', m issues = Ok (tt, issues')) \/ m issues = Raise e.

(** The fields tested for membership in a set of strings, by section. *)
Definition enum_fields : list (string * string) :=
  [("api", "model"); ("logging", "level"); ("logging", "format");
   ("session", "prune_strategy"); ("ui", "theme"); ("ui", "spinner_style");
   ("response", "format")].

(** The table under a top-level key as [cross_validate] reads it: the
    empty table when the key is absent, nothing when the value is not a
    table. *)
Definition table_or_empty (config : dict) (name : string) : option dict :=
  match lookup name config with
  | None => Some []
  | Some (VDict d) => Some d
  | Some _ => None
  end.

(** A cross-validation rule is violated in a table: the flag is there with
    a true value, and the needed key is absent or has a false value. *)
Definition rule_violated (table : dict) (flag needed : string) : bool :=
  truthy_opt (lookup flag table) && negb (truthy_opt (lookup needed table)).

(** Every character of a string satisfies a test. *)
Fixpoint all_chars (p : ascii -> bool) (s : string) : bool :=
  match s with
  | EmptyString => true
  | String c s' => p c && all_chars p s'
  end.

(** A string that is empty or begins with a character failing the test. *)
Definition stops (p : ascii -> bool) (s : string) : bool :=
  match s with
  | EmptyString => true
  | String c _ => negb (p c)
  end.

(** The unit suffixes of a size, in any mix of upper and lower case. *)
Definition size_units : list string :=
  ["B"; "b"]
    ++ flat_map (fun c => [c; (c ++ "B")%string; (c ++ "b")%string])
         ["K"; "k"; "M"; "m"; "G"; "g"].

(** The texts [SIZE_PATTERN] describes: digits, then possibly a dot and
    digits, then blanks, then possibly a unit, then possibly one newline. *)
Definition size_text (s : string) : Prop :=
  exists whole fraction blanks unit_ tail,
    s = (whole ++ fraction ++ blanks ++ unit_ ++ tail)%string /\
    whole <> "" /\ all_chars SizePattern.is_digit whole = true /\
    (fraction = "" \/
     exists decimals, fraction = ("." ++ decimals)%string /\ decimals <> "" /\
                      all_chars SizePattern.is_digit decimals = true) /\
    all_chars SizePattern.is_space blanks = true /\
    (unit_ = "" \/ In unit_ size_units) /\
    (tail = "" \/ tail = Json.newline).

(** The integers [str] and [repr] write out: Python refuses, with a
    [ValueError], to convert an integer of more than 4300 decimal digits
    (the default of [sys.get_int_max_str_digits]). *)
Definition int_max_str_digits : Z := 4300.

Definition printable_int (n : Z) : bool := Z.abs n <? 10 ^ int_max_str_digits.

(** [str(v)] and [repr(v)] return: every integer in [v], at any depth, can
    be written out. *)
Fixpoint printable (v : value) : bool :=
  match v with
  | VInt n => printable_int n
  | VList l => forallb printable l
  | VDict d => forallb (fun kv => printable (snd kv)) d
  | _ => true
  end.

(** A text of ASCII characters only. On such a text [repr] escapes what
    [Str.repr] escapes, and [\d], [\s] and the letters of [SIZE_PATTERN]
    under [re.IGNORECASE] match what [SizePattern] takes them to match;
    beyond ASCII, Python also escapes the characters that are not
    printable, and takes further digits, blanks and letters. *)
Definition ascii_text (s : string) : bool :=
  all_chars (fun c => Nat.ltb (nat_of_ascii c) 128) s.

(** The values whose text [str] and [repr] give as modelled: the strings
    and the keys are ASCII texts and the integers can be written out, at
    any depth. *)
Fixpoint plain (v : value) : bool :=
  match v with
  | VStr s => ascii_text s
  | VInt n => printable_int n
  | VList l => forallb plain l
  | VDict d => forallb (fun kv => ascii_text (fst kv) && plain (snd kv)) d
  | _ => true
  end.

(** A file system that holds one parsed document at every path. *)
Definition holding (config : dict) : filesystem := fun _ => Loaded config.

End Spec.

(** ** Properties *)

Import Py Method ConfigValidator Spec.
Local Open Scope method_scope.

Section MethodLaws.

Lemma bind_Ok {A B} (m : M A) (k : A -> M B) issues r :
  bind m k issues = Ok r ->
  exists a mid, m issues = Ok (a, mid) /\ k a mid = Ok r.
Proof.
  unfold bind. destruct (m issues) as [[a mid]|e]; [eauto | discriminate].
Qed.

Lemma emits_ret P : emits P (ret tt).
Proof. intros issues. cbn. now rewrite app_nil_r. Qed.

Lemma emits_append P i : P i -> emits P (append i).
Proof. intros Hi issues. cbn. split; [auto | reflexivity]. Qed.

Lemma emits_bind P (m : M unit) (k : unit -> M unit) :
  emits P m -> (forall u, emits P (k u)) -> emits P (bind m k).
Proof.
  intros Hm Hk issues. unfold bind.
  pose proof (Hm issues) as Hi. pose proof (Hm []) as H0.
  destruct (m []) as [[[] out]|e].
  - destruct Hi as [Pout ->]. clear H0.
    pose proof (Hk tt (issues ++ out)) as Hi. pose proof (Hk tt out) as H0.
    destruct (k tt []) as [[[] out']|e'].
    + destruct Hi as [Pout' ->]. destruct H0 as [_ ->].
      split; [apply Forall_app; auto | now rewrite app_assoc].
    + now rewrite H0.
  - now rewrite Hi.
Qed.

Lemma emits_lift {A} P (r : result A) (k : A -> M unit) :
  (forall a, r = Ok a -> emits P (k a)) -> emits P (bind (lift r) k).
Proof.
  intros Hk issues. unfold bind, lift. destruct r as [a|e]; [|reflexivity].
  apply (Hk a eq_refl).
Qed.

Lemma emits_when P (b : bool) (body : M unit) :
  (b = true -> emits P body) -> emits P (when_ b body).
Proof. destruct b; cbn; [auto | intros _; apply emits_ret]. Qed.

Lemma emits_for_each {A} P (l : list A) (body : A -> M unit) :
  (forall x, In x l -> emits P (body x)) -> emits P (for_each l body).
Proof.
  induction l as [|x l IH]; intros Hb; cbn [for_each].
  - apply emits_ret.
  - apply emits_bind; [apply Hb; now left | intros _; apply IH; intros; apply Hb; now right].
Qed.

Lemma emits_if_present P k d (body : value -> M unit) :
  (forall v, emits P (body v)) -> emits P (if_present k d body).
Proof.
  intros Hb. unfold if_present. apply emits_lift. intros present _.
  apply emits_when. intros _. apply emits_lift. auto.
Qed.

Lemma emits_weaken (P Q : ValidationIssue -> Prop) m :
  (forall i, P i -> Q i) -> emits P m -> emits Q m.
Proof.
  intros HPQ Hm issues. specialize (Hm issues).
  destruct (m []) as [[[] out]|e]; [|assumption].
  destruct Hm as [HP ->]. split; [|reflexivity].
  eapply Forall_impl; eauto.
Qed.

(** What [emits] says of a call that returns. *)
Lemma emits_Ok P m issues u issues' :
  emits P m -> m issues = Ok (u, issues') ->
  exists out, output m = Ok out /\ Forall P out /\ issues' = issues ++ out.
Proof.
  intros Hm Hrun. specialize (Hm issues). unfold output, run.
  destruct (m []) as [[[] out]|e].
  - destruct Hm as [HP Heq]. rewrite Heq in Hrun. inversion Hrun; subst. eauto.
  - congruence.
Qed.

Lemma emits_output P m out :
  emits P m -> output m = Ok out ->
  Forall P out /\ forall issues, m issues = Ok (tt, issues ++ out).
Proof.
  intros Hm Hout. unfold output, run in Hout.
  split; [|intros issues]; [specialize (Hm [])|specialize (Hm issues)];
    destruct (m []) as [[[] out']|e]; try discriminate;
    inversion Hout; subst; tauto.
Qed.

Lemma bind_lift_Ok {A B} (a : A) (k : A -> M B) : bind (lift (Ok a)) k = k a.
Proof. reflexivity. Qed.

Lemma if_present_found k d v (body : value -> M unit) :
  lookup k d = Some v -> if_present k (VDict d) body = body v.
Proof.
  intros H. unfold if_present, contains, getitem, has_key. rewrite H. reflexivity.
Qed.

Lemma if_present_missing k d (body : value -> M unit) :
  lookup k d = None -> if_present k (VDict d) body = ret tt.
Proof.
  intros H. unfold if_present, contains, getitem, has_key. rewrite H. reflexivity.
Qed.

Lemma if_present_same_lookup k d d' (body : value -> M unit) :
  lookup k d = lookup k d' -> if_present k (VDict d) body = if_present k (VDict d') body.
Proof.
  intros H. unfold if_present, contains, getitem, has_key. now rewrite H.
Qed.

End MethodLaws.

(** Decomposition of a method into the combinators of [Method]; [leaf]
    closes the goals about single issues. *)
Ltac emits_step :=
  cbv beta;
  first
    [ apply emits_ret
    | apply emits_append
    | apply emits_lift; intros ? ?
    | apply emits_when; intros ?
    | apply emits_for_each; intros ? ?
    | apply emits_if_present; intros ?
    | apply emits_bind; [ | intros ? ]
    | match goal with
      | |- emits _ (match ?v with _ => _ end) => destruct v
      | |- emits _ (if ?b then _ else _) => destruct b
      end ].

Ltac emits_with leaf := repeat emits_step; try solve [leaf].

Ltac located_leaf := unfold located; cbn; discriminate.

Section Helpers.

Variable P : ValidationIssue -> Prop.

Lemma emits_integer_range path v lo hi :
  (forall msg, P (Issue ERROR path msg)) ->
  emits P (validate_integer_range path v lo hi).
Proof. intros HP. unfold validate_integer_range, add_error. emits_with auto. Qed.

Lemma emits_float_range path v lo hi :
  (forall msg, P (Issue ERROR path msg)) ->
  emits P (validate_float_range path v lo hi).
Proof. intros HP. unfold validate_float_range, add_error. emits_with auto. Qed.

Lemma emits_boolean path v :
  (forall msg, P (Issue ERROR path msg)) ->
  emits P (validate_boolean path v).
Proof. intros HP. unfold validate_boolean, add_error. emits_with auto. Qed.

End Helpers.

Ltac located_step :=
  first
    [ apply emits_integer_range; intros ?
    | apply emits_float_range; intros ?
    | apply emits_boolean; intros ?
    | emits_step ].

Ltac located_auto := repeat located_step; try solve [located_leaf].

Section Located.

Lemma located_api order v : emits located (validate_api order v).
Proof. unfold validate_api, add_error, add_warning. located_auto. Qed.

Lemma located_repl v : emits located (validate_repl v).
Proof. unfold validate_repl, validate_bool_fields. located_auto. Qed.

Lemma located_logging order v : emits located (validate_logging order v).
Proof. unfold validate_logging, add_error. located_auto. Qed.

Lemma located_tools_commands order v : emits located (validate_tools_commands order v).
Proof. unfold validate_tools_commands, add_error, add_warning. located_auto. Qed.

Lemma located_tools order v : emits located (validate_tools order v).
Proof. unfold validate_tools, add_error. located_auto. Qed.

Lemma located_session order v : emits located (validate_session order v).
Proof. unfold validate_session, add_error. located_auto. Qed.

Lemma located_ui order v : emits located (validate_ui order v).
Proof. unfold validate_ui, add_error, add_warning. located_auto. Qed.

Lemma located_response order v : emits located (validate_response order v).
Proof. unfold validate_response, add_error. located_auto. Qed.

Lemma located_network v : emits located (validate_network v).
Proof. unfold validate_network, add_error. located_auto. Qed.

Lemma located_security v : emits located (validate_security v).
Proof. unfold validate_security, validate_bool_fields. located_auto. Qed.

Lemma located_debug v : emits located (validate_debug v).
Proof. unfold validate_debug, validate_bool_fields. located_auto. Qed.

Lemma located_aliases v : emits located (validate_aliases v).
Proof. unfold validate_aliases, add_error. located_auto. Qed.

Lemma located_models v : emits located (validate_models v).
Proof. unfold validate_models. located_auto. Qed.

Lemma located_prompts v : emits located (validate_prompts v).
Proof. unfold validate_prompts, add_error. located_auto. Qed.

Lemma located_features v : emits located (validate_features v).
Proof. unfold validate_features. located_auto. Qed.

Lemma located_cross config : emits located (cross_validate config).
Proof. unfold cross_validate, add_warning. located_auto. Qed.

Lemma located_sections order config :
  Forall (emits located) (map (dispatch config) (sections order)).
Proof.
  unfold sections, dispatch. cbn [map fst snd].
  repeat constructor; apply emits_if_present; intros v;
    auto using located_api, located_repl, located_logging, located_tools,
      located_session, located_ui, located_response, located_network,
      located_security, located_debug, located_aliases, located_models,
      located_prompts, located_features.
Qed.

End Located.

Section Stages.

Lemma for_each_when_append {A} (c : A -> bool) (f : A -> ValidationIssue) l issues :
  for_each l (fun x => when_ (c x) (append (f x))) issues
  = Ok (tt, issues ++ map f (filter c l)).
Proof.
  revert issues. induction l as [|x l IH]; intros issues; cbn [for_each filter].
  - cbn. now rewrite app_nil_r.
  - unfold bind. destruct (c x); cbn [when_ map].
    + unfold append at 1. rewrite IH, <- app_assoc. reflexivity.
    + unfold ret at 1. apply IH.
Qed.

Lemma output_structure config :
  output (validate_structure config)
  = Ok (map unknown_table
          (filter (fun key => negb (Str.mem key valid_tables)) (keys config))).
Proof.
  unfold output, run, validate_structure, add_warning.
  now rewrite (for_each_when_append _ unknown_table).
Qed.

Lemma emits_structure config :
  emits (fun i => exists key, i = unknown_table key /\ In key (keys config)
                              /\ Str.mem key valid_tables = false)
    (validate_structure config).
Proof.
  unfold validate_structure, add_warning. emits_with idtac.
  match goal with H : negb _ = true |- _ => apply negb_true_iff in H end.
  eexists. repeat split; eassumption.
Qed.

Lemma emits_any P m : emits P m -> emits (fun _ => True) m.
Proof. apply emits_weaken. auto. Qed.

Lemma stages_emit order config :
  Forall (emits (fun _ => True)) (stages order config).
Proof.
  unfold stages. constructor; [eapply emits_any, emits_structure|].
  apply Forall_app. split.
  - eapply Forall_impl; [|apply located_sections]. intros m. apply emits_any.
  - repeat constructor. eapply emits_any, located_cross.
Qed.

(** A sequence of emitting methods returns exactly when each of them
    does, and then gives their outputs one after the other. *)
Lemma output_sequence P (ms : list (M unit)) :
  Forall (emits P) ms ->
  forall out,
    output (for_each ms (fun m => m)) = Ok out <->
    exists parts, Forall2 (fun m part => output m = Ok part) ms parts /\ out = List.concat parts.
Proof.
  induction 1 as [|m ms Hm Hms IH]; intros out; cbn [for_each].
  - unfold output, run, ret. split.
    + intros [= <-]. exists []. split; [constructor | reflexivity].
    + intros (parts & HF & ->). inversion HF. reflexivity.
  - assert (Hrest : emits P (for_each ms (fun m => m)))
      by (apply emits_for_each; intros x Hx; rewrite Forall_forall in Hms; auto).
    split.
    + intros Hout. unfold output, run in Hout.
      destruct (bind m (fun _ => for_each ms (fun m0 => m0)) []) as [[[] o]|e] eqn:Hb;
        [|discriminate].
      injection Hout as ->.
      apply bind_Ok in Hb. destruct Hb as ([] & mid & Hm1 & Hk).
      destruct (emits_Ok _ _ _ _ _ Hm Hm1) as (o1 & Ho1 & _ & ->).
      destruct (emits_Ok _ _ _ _ _ Hrest Hk) as (o2 & Ho2 & _ & ->).
      apply IH in Ho2. destruct Ho2 as (parts & HF & ->).
      exists (o1 :: parts). split; [constructor; assumption | reflexivity].
    + intros (parts & HF & ->). inversion HF as [|m' part ms' parts' Hpart HF']; subst.
      assert (Ho2 : output (for_each ms (fun m => m)) = Ok (List.concat parts'))
        by (apply IH; eauto).
      destruct (emits_output _ _ _ Hm Hpart) as [_ E1].
      destruct (emits_output _ _ _ Hrest Ho2) as [_ E2].
      unfold output, run, bind. rewrite E1, E2. reflexivity.
Qed.

Lemma Forall2_map_l {A B C} (R : B -> C -> Prop) (f : A -> B) l parts :
  Forall2 R (map f l) parts <-> Forall2 (fun x part => R (f x) part) l parts.
Proof.
  revert parts. induction l as [|x l IH]; intros parts; cbn [map]; split; intros H;
    inversion H; subst; constructor; auto; now apply IH.
Qed.

Lemma Forall2_first_last {A B} (R : A -> B -> Prop) a l c all :
  Forall2 R (a :: l ++ [c]) all ->
  exists x parts z, all = x :: parts ++ [z] /\ R a x /\ Forall2 R l parts /\ R c z.
Proof.
  intros H. inversion H as [|a' x l' rest Hx Hrest]; subst.
  apply Forall2_app_inv_l in Hrest.
  destruct Hrest as (parts & last & Hparts & Hlast & ->).
  inversion Hlast as [|c' z l'' nil' Hz Hnil]; subst.
  inversion Hnil; subst. eauto 10.
Qed.

(** [validate_file] on a parsed document runs the stages in sequence and
    derives the verdict from the issues collected. *)
Lemma validate_file_sequence order fs p config :
  fs (Pathlib.str p) = Loaded config ->
  validate_file order fs p =
  match output (for_each (stages order config) (fun m => m)) with
  | Ok out => Ok (negb (existsb is_error out), out)
  | Raise e => Raise e
  end.
Proof.
  intros Hfs. unfold validate_file. rewrite Hfs.
  unfold output, run, stages, sections, dispatch. cbn [map app for_each fst snd].
  unfold bind, get_issues, ret.
  repeat match goal with
    | |- context [match ?x with Ok _ => _ | Raise _ => _ end] =>
        destruct x as [[[] ?]|?]; try reflexivity
    end.
Qed.

(** The result of [validate_file] on a parsed document, by stage. *)
Lemma validate_file_parts order fs p config ok issues :
  fs (Pathlib.str p) = Loaded config ->
  validate_file order fs p = Ok (ok, issues) <->
  exists structural parts cross,
    output (validate_structure config) = Ok structural /\
    Forall2 (fun sec part => output (dispatch config sec) = Ok part) (sections order) parts /\
    output (cross_validate config) = Ok cross /\
    issues = structural ++ List.concat parts ++ cross /\
    ok = negb (existsb is_error issues).
Proof.
  intros Hfs. rewrite (validate_file_sequence order _ _ _ Hfs).
  split.
  - intros H.
    destruct (output (for_each (stages order config) (fun m => m))) as [out|e] eqn:Hout;
      [|discriminate].
    injection H as <- <-.
    apply (output_sequence _ _ (stages_emit order config)) in Hout.
    destruct Hout as (all & HF & ->).
    apply Forall2_first_last in HF.
    destruct HF as (structural & parts & cross & -> & Hs & Hparts & Hcross).
    apply Forall2_map_l in Hparts.
    exists structural, parts, cross.
    assert (E : List.concat (structural :: parts ++ [cross])
                = structural ++ List.concat parts ++ cross)
      by (cbn [List.concat]; rewrite concat_app; cbn [List.concat]; now rewrite app_nil_r).
    rewrite E. auto.
  - intros (structural & parts & cross & Hs & Hparts & Hcross & -> & ->).
    assert (Hout : output (for_each (stages order config) (fun m => m))
                   = Ok (structural ++ List.concat parts ++ cross)).
    { apply (output_sequence _ _ (stages_emit order config)).
      exists (structural :: parts ++ [cross]). split.
      - unfold stages. constructor; [assumption|].
        apply Forall2_app; [now apply Forall2_map_l | repeat constructor; assumption].
      - cbn [List.concat]. rewrite concat_app. cbn [List.concat]. now rewrite app_nil_r. }
    now rewrite Hout.
Qed.

End Stages.

(** ** The scenarios of the specification *)

Example scenario_valid_api order :
  validate_file order
    (holding [("api", VDict [("model", VStr "gemini-1.5-flash"); ("timeout", VInt 30)])])
    (Pathlib.Path_ "config.toml")
  = Ok (true, []).
Proof. reflexivity. Qed.

Example scenario_invalid_api order :
  validate_file order
    (holding [("api", VDict [("model", VStr "bogus-model"); ("timeout", VInt 500)])])
    (Pathlib.Path_ "config.toml")
  = Ok (false,
        [Issue ERROR "api.model"
           ("Invalid model: bogus-model. Valid models: " ++ Str.join ", " (order VALID_MODELS));
         Issue ERROR "api.timeout" "Must be between 1 and 300"]).
Proof. reflexivity. Qed.

Example scenario_not_a_table order :
  validate_file order (holding [("api", VInt 1)]) (Pathlib.Path_ "config.toml")
  = Raise TypeError.
Proof. reflexivity. Qed.

(** ** The verdict *)

Lemma existsb_false_filter {A} (f : A -> bool) l :
  existsb f l = false <-> List.length (filter f l) = 0%nat.
Proof.
  induction l as [|x l IH]; cbn; [tauto|].
  destruct (f x); cbn; [split; discriminate | exact IH].
Qed.

(** C1. Whenever [validate_file] returns, its verdict is true exactly when
    the issue list it returns holds no issue of level ERROR; warnings and
    infos do not count. *)
Theorem verdict_iff_no_error order fs p ok issues :
  validate_file order fs p = Ok (ok, issues) ->
  (ok = true <-> List.length (filter is_error issues) = 0%nat).
Proof.
  intros H. destruct (fs (Pathlib.str p)) as [| e | e | config] eqn:Hfs.
  1-3: unfold validate_file in H; rewrite Hfs in H; cbn in H;
       injection H as <- <-; cbn; split; discriminate.
  apply (validate_file_parts order _ _ _ _ _ Hfs) in H.
  destruct H as (_ & _ & _ & _ & _ & _ & _ & ->).
  rewrite negb_true_iff. apply existsb_false_filter.
Qed.

Lemma verdict_iff_no_error_witness :
  true = true <-> List.length (filter is_error [no_log_file]) = 0%nat.
Proof.
  apply (verdict_iff_no_error source_order
           (holding [("logging", VDict [("log_requests", VBool true)])])
           (Pathlib.Path_ "config.toml")).
  reflexivity.
Defined.

(** ** Sources that cannot be read *)



(** ** Constraint primitives *)

(** C4, as the code has it. For bounds [min_val <= max_val], the integers
    [min_val] and [max_val] give no issue, [min_val - 1] and [max_val + 1]
    give exactly one ERROR "Must be between min_val and max_val", and a
    value that is neither an integer nor a boolean gives exactly one ERROR
    "Must be an integer". *)
Theorem integer_range_bounds path min_val max_val issues :
  min_val <= max_val ->
  validate_integer_range path (VInt min_val) min_val max_val issues = Ok (tt, issues) /\
  validate_integer_range path (VInt max_val) min_val max_val issues = Ok (tt, issues) /\
  validate_integer_range path (VInt (min_val - 1)) min_val max_val issues
    = Ok (tt, issues ++ [out_of_range path min_val max_val]) /\
  validate_integer_range path (VInt (max_val + 1)) min_val max_val issues
    = Ok (tt, issues ++ [out_of_range path min_val max_val]) /\
  forall v, type_of v <> Integer -> type_of v <> Boolean ->
    validate_integer_range path v min_val max_val issues
    = Ok (tt, issues ++ [Issue ERROR path "Must be an integer"]).
Proof.
  intros Hle. unfold validate_integer_range, out_of_range, add_error, append, ret.
  cbn [isinstance_int int_of negb].
  repeat split.
  - replace ((min_val <? min_val) || (min_val >? max_val)) with false; [reflexivity|].
    symmetry. apply orb_false_iff. split; [apply Z.ltb_ge; lia|].
    rewrite Z.gtb_ltb. apply Z.ltb_ge. lia.
  - replace ((max_val <? min_val) || (max_val >? max_val)) with false; [reflexivity|].
    symmetry. apply orb_false_iff. split; [apply Z.ltb_ge; lia|].
    rewrite Z.gtb_ltb. apply Z.ltb_ge. lia.
  - replace (min_val - 1 <? min_val) with true; [reflexivity|].
    symmetry. apply Z.ltb_lt. lia.
  - replace (max_val + 1 >? max_val) with true; [now rewrite orb_true_r|].
    symmetry. rewrite Z.gtb_ltb. apply Z.ltb_lt. lia.
  - intros v Hint Hbool. destruct v; cbn in *; congruence.
Qed.

Lemma integer_range_bounds_witness :
  validate_integer_range "api.timeout" (VInt 1) 1 300 [] = Ok (tt, []) /\
  validate_integer_range "api.timeout" (VInt 300) 1 300 [] = Ok (tt, []) /\
  validate_integer_range "api.timeout" (VInt (1 - 1)) 1 300 []
    = Ok (tt, [] ++ [out_of_range "api.timeout" 1 300]) /\
  validate_integer_range "api.timeout" (VInt (300 + 1)) 1 300 []
    = Ok (tt, [] ++ [out_of_range "api.timeout" 1 300]) /\
  forall v, type_of v <> Integer -> type_of v <> Boolean ->
    validate_integer_range "api.timeout" v 1 300 []
    = Ok (tt, [] ++ [Issue ERROR "api.timeout" "Must be an integer"]).
Proof.
  apply (integer_range_bounds "api.timeout" 1 300 []). lia.
Defined.

(** C4 does not hold of a boolean: [true] is not of integer type, and in
    an integer field with bounds 1 and 300 it gives no issue. *)
Lemma integer_range_boolean_counterexample :
  type_of (VBool true) <> Integer /\
  validate_integer_range "api.timeout" (VBool true) 1 300 [] = Ok (tt, []) /\
  validate_integer_range "api.timeout" (VBool true) 1 300 []
    <> Ok (tt, [Issue ERROR "api.timeout" "Must be an integer"]).
Proof. repeat split; discriminate. Qed.

Example out_of_range_message :
  message (out_of_range "api.timeout" 1 300) = "Must be between 1 and 300".
Proof. reflexivity. Qed.

Section BooleanFields.

Lemma append_inv_head (p a b : string) : (p ++ a = p ++ b)%string -> a = b.
Proof. induction p as [|c p IH]; cbn; intros H; [assumption | injection H; auto]. Qed.

Lemma validate_boolean_run path v issues :
  validate_boolean path v issues
  = Ok (tt, issues ++ if isinstance_bool v then [] else [not_boolean path]).
Proof.
  unfold validate_boolean. destruct (isinstance_bool v); cbn; [|reflexivity].
  now rewrite app_nil_r.
Qed.

Lemma bool_fields_run section fields table issues :
  validate_bool_fields section fields (VDict table) issues
  = Ok (tt, issues ++ flat_map (bool_field_issues section table) fields).
Proof.
  unfold validate_bool_fields. revert issues.
  induction fields as [|f fields IH]; intros issues; cbn [for_each flat_map].
  - cbn. now rewrite app_nil_r.
  - unfold bind at 1. unfold bool_field_issues at 1.
    destruct (lookup f table) as [v|] eqn:Hf.
    + rewrite (if_present_found _ _ _ _ Hf), validate_boolean_run, IH, <- app_assoc.
      reflexivity.
    + rewrite (if_present_missing _ _ _ Hf). cbn [ret]. rewrite IH. reflexivity.
Qed.

Lemma features_run table issues :
  validate_features (VDict table) issues
  = Ok (tt, issues ++ flat_map (fun kv => if isinstance_bool (snd kv) then []
                                          else [not_boolean ("features." ++ fst kv)]) table).
Proof.
  unfold validate_features. cbn [items]. rewrite bind_lift_Ok. revert issues.
  induction table as [|[feature enabled] table IH]; intros issues; cbn [for_each flat_map].
  - cbn. now rewrite app_nil_r.
  - unfold bind at 1. rewrite validate_boolean_run, IH, <- app_assoc. reflexivity.
Qed.

(** Among issues whose paths are a prefix followed by distinct keys, the
    issues at the path of one key are the issues of that key. *)
Lemma issues_at_flat_map {A} (key : A -> string) (pre : string)
      (g : A -> list ValidationIssue) l x0 :
  (forall x, Forall (fun i => path i = (pre ++ key x)%string) (g x)) ->
  NoDup (map key l) -> In x0 l ->
  issues_at (pre ++ key x0) (flat_map g l) = g x0.
Proof.
  intros Hg. unfold issues_at.
  assert (Hall : forall x, filter (fun i => String.eqb (path i) (pre ++ key x)) (g x) = g x).
  { intros x. specialize (Hg x). induction (g x) as [|i l' IH]; cbn; [reflexivity|].
    inversion Hg; subst. rewrite (proj2 (String.eqb_eq _ _)) by assumption.
    f_equal. auto. }
  assert (Hnone : forall x, key x <> key x0 ->
            filter (fun i => String.eqb (path i) (pre ++ key x0)) (g x) = []).
  { intros x Hne. specialize (Hg x). induction (g x) as [|i l' IH]; cbn; [reflexivity|].
    inversion Hg as [|? ? Hi Hl']; subst.
    destruct (String.eqb_spec (path i) (pre ++ key x0)) as [E|_]; [|auto].
    rewrite Hi in E. apply append_inv_head in E. contradiction. }
  induction l as [|x l IH]; intros Hnd Hin; [contradiction|].
  cbn [map] in Hnd. inversion Hnd as [|? ? Hnotin Hnd']; subst.
  cbn [flat_map]. rewrite filter_app. destruct Hin as [-> | Hin].
  - rewrite Hall.
    assert (Hrest : filter (fun i => String.eqb (path i) (pre ++ key x0)) (flat_map g l) = []).
    { clear IH Hnd Hnd'. induction l as [|y l IHl]; cbn [flat_map]; [reflexivity|].
      rewrite filter_app, Hnone, IHl; [reflexivity | |].
      - intros Hy. apply Hnotin. now right.
      - intros Hy. apply Hnotin. left. assumption. }
    rewrite Hrest. apply app_nil_r.
  - rewrite Hnone, IH by (try assumption; intros E; apply Hnotin; rewrite E;
                          now apply in_map).
    reflexivity.
Qed.

End BooleanFields.

(** C10. A boolean in an integer or float field passes the type check and
    is compared with the bounds as the integer 1 or 0; [api.timeout = true]
    gives no issue at all. *)
Theorem boolean_counts_as_number order path b issues :
  (forall min_val max_val,
     validate_integer_range path (VBool b) min_val max_val issues
     = if (Z.b2z b <? min_val) || (Z.b2z b >? max_val)
       then Ok (tt, issues ++ [out_of_range path min_val max_val])
       else Ok (tt, issues)) /\
  (forall min_val max_val,
     validate_float_range path (VBool b) min_val max_val issues
     = validate_float_range path (VInt (Z.b2z b)) min_val max_val issues /\
     validate_float_range path (VBool b) min_val max_val issues
     <> Ok (tt, issues ++ [Issue ERROR path "Must be a number"])) /\
  validate_file order
    (holding [("api", VDict [("timeout", VBool true); ("retry_delay", VBool true)])])
    (Pathlib.Path_ "config.toml")
  = Ok (true, []).
Proof.
  split; [|split; [|reflexivity]].
  - intros min_val max_val. unfold validate_integer_range. cbn [isinstance_int negb int_of].
    destruct ((Z.b2z b <? min_val) || (Z.b2z b >? max_val)); reflexivity.
  - intros min_val max_val. split; [reflexivity|].
    unfold validate_float_range. cbn [isinstance_int_float negb].
    destruct (lt_float (VBool b) (float_val min_val) || gt_float (VBool b) (float_val max_val));
      cbn; intros H; injection H as H.
    + apply app_inv_head in H. cbn in H. discriminate H.
    + apply (f_equal (@List.length _)) in H.
      rewrite List.length_app in H. cbn in H. lia.
Qed.

(** ** Cross-validation *)

Lemma emits_cross config :
  emits (fun i => i = no_log_file \/ i = no_default_dir) (cross_validate config).
Proof. unfold cross_validate, add_warning. emits_with ltac:(cbn; auto). Qed.

Lemma cross_validate_logging config lg out :
  lookup "logging" config = Some (VDict lg) ->
  lookup "log_requests" lg = Some (VBool true) ->
  lookup "file" lg = None ->
  output (cross_validate config) = Ok out ->
  exists rest, out = no_log_file :: rest.
Proof.
  intros Hlog Hreq Hfile Hout.
  unfold output, run, cross_validate in Hout.
  set (rest := bind (lift (get_default (VDict config) "session" _)) _) in Hout.
  assert (Hrest : emits (fun _ => True) rest)
    by (unfold rest, add_warning; emits_with auto).
  cbn [get_default] in Hout. rewrite Hlog in Hout.
  rewrite bind_lift_Ok in Hout. cbn [get_default] in Hout. rewrite Hreq in Hout.
  rewrite bind_lift_Ok in Hout. cbn [truthy when_] in Hout.
  rewrite bind_lift_Ok in Hout. cbn [get] in Hout. rewrite Hfile in Hout.
  rewrite bind_lift_Ok in Hout. cbn [truthy_opt negb when_] in Hout.
  unfold bind, add_warning, append in Hout. cbn [app] in Hout.
  destruct (rest [_]) as [[[] after]|e] eqn:Hafter; [|discriminate].
  injection Hout as <-.
  destruct (emits_Ok _ _ _ _ _ Hrest Hafter) as (o & _ & _ & ->).
  eexists. reflexivity.
Qed.

Lemma cross_validate_session config ss out :
  lookup "session" config = Some (VDict ss) ->
  lookup "auto_save" ss = Some (VBool true) ->
  lookup "default_dir" ss = None ->
  output (cross_validate config) = Ok out ->
  exists before, out = before ++ [no_default_dir].
Proof.
  intros Hses Hsave Hdir Hout.
  unfold output, run in Hout.
  destruct (cross_validate config []) as [[[] o]|e] eqn:Hrun; [|discriminate].
  injection Hout as ->.
  unfold cross_validate in Hrun.
  apply bind_Ok in Hrun. destruct Hrun as (logging & i1 & _ & Hrun).
  apply bind_Ok in Hrun. destruct Hrun as (log_requests & i2 & _ & Hrun).
  apply bind_Ok in Hrun. destruct Hrun as ([] & before & _ & Hrun).
  cbn [get_default] in Hrun. rewrite Hses in Hrun.
  rewrite bind_lift_Ok in Hrun. cbn [get_default] in Hrun. rewrite Hsave in Hrun.
  rewrite bind_lift_Ok in Hrun. cbn [truthy when_] in Hrun.
  rewrite bind_lift_Ok in Hrun. cbn [get] in Hrun. rewrite Hdir in Hrun.
  rewrite bind_lift_Ok in Hrun. cbn [truthy_opt negb when_] in Hrun.
  unfold add_warning, append in Hrun. injection Hrun as <-.
  eexists. reflexivity.
Qed.

(** C6. The two cross-validation rules add warnings only: every issue
    [cross_validate] adds is one of two WARNINGs, at path "logging" or
    "session". With [log_requests] true and no [file] in the logging table
    the first is added, with [auto_save] true and no [default_dir] in the
    session table the second. The document [{logging: {log_requests: true}}]
    gives exactly one WARNING at path "logging" and the verdict true. *)
Theorem cross_validation_warns order config :
  (forall issues issues',
      cross_validate config issues = Ok (tt, issues') ->
      exists out,
        issues' = issues ++ out /\
        Forall (fun i => level i = WARNING /\ (path i = "logging" \/ path i = "session")) out) /\
  (forall lg out,
      lookup "logging" config = Some (VDict lg) ->
      lookup "log_requests" lg = Some (VBool true) ->
      lookup "file" lg = None ->
      output (cross_validate config) = Ok out ->
      In no_log_file out /\ level no_log_file = WARNING) /\
  (forall ss out,
      lookup "session" config = Some (VDict ss) ->
      lookup "auto_save" ss = Some (VBool true) ->
      lookup "default_dir" ss = None ->
      output (cross_validate config) = Ok out ->
      In no_default_dir out /\ level no_default_dir = WARNING) /\
  validate_file order (holding [("logging", VDict [("log_requests", VBool true)])])
    (Pathlib.Path_ "config.toml")
  = Ok (true, [Issue WARNING "logging" "log_requests is true but no log file specified"]).
Proof.
  repeat split.
  - intros issues issues' Hrun.
    destruct (emits_Ok _ _ _ _ _ (emits_cross config) Hrun) as (out & _ & HF & ->).
    exists out. split; [reflexivity|].
    eapply Forall_impl; [|exact HF].
    intros i [-> | ->]; cbn; auto.
  - destruct (cross_validate_logging _ _ _ H H0 H1 H2) as (rest & ->). now left.
  - destruct (cross_validate_session _ _ _ H H0 H1 H2) as (before & ->).
    apply in_or_app. right. now left.
Qed.

Lemma cross_validation_warns_witness :
  In no_log_file [no_log_file; no_default_dir] /\ level no_log_file = WARNING.
Proof.
  destruct (cross_validation_warns source_order
              [("logging", VDict [("log_requests", VBool true)]);
               ("session", VDict [("auto_save", VBool true)])])
    as (_ & Hlogging & _).
  apply (Hlogging [("log_requests", VBool true)]); reflexivity.
Defined.

(** ** The scan of allowed commands *)

Section Substrings.

Lemma startswith_spec p s :
  Str.startswith p s = true <-> exists rest, s = (p ++ rest)%string.
Proof.
  revert s. induction p as [|a p IH]; intros s; cbn.
  - split; [intros _; now exists s | reflexivity].
  - destruct s as [|b s]; cbn.
    + split; [discriminate | intros [rest H]; discriminate].
    + rewrite andb_true_iff, Ascii.eqb_eq, IH. split.
      * intros [-> [rest ->]]. now exists rest.
      * intros [rest H]. injection H as -> ->. eauto.
Qed.

Lemma contains_spec p s : Str.contains p s = true <-> substring p s.
Proof.
  unfold substring. induction s as [|c s IH]; cbn [Str.contains].
  - rewrite orb_false_r, startswith_spec. split.
    + intros [rest H]. now exists ""%string, rest.
    + intros ([|x before] & after & H); [now exists after | discriminate].
  - rewrite orb_true_iff, startswith_spec, IH. split.
    + intros [[rest H] | (before & after & ->)].
      * now exists ""%string, rest.
      * now exists (String c before), after.
    + intros ([|x before] & after & H).
      * left. now exists after.
      * right. injection H as -> ->. eauto.
Qed.

End Substrings.

Section CommandScan.

Variable order : list string -> list string.
Hypothesis order_iterates : iterates order.

Lemma tools_commands_split commands cmds :
  lookup "allowed_commands" commands = Some (VList cmds) ->
  validate_tools_commands order (VDict commands)
  = (timeout_check commands ;; scan order cmds).
Proof.
  intros H. unfold validate_tools_commands, timeout_check, scan.
  now rewrite (if_present_found "allowed_commands" _ _ _ H).
Qed.

Lemma emits_scan cmds :
  emits (fun i => level i = WARNING /\ path i = "tools.commands.allowed_commands")
    (scan order cmds).
Proof. unfold scan, add_warning. emits_with ltac:(cbn; auto). Qed.

(** Equal issues, one for each element kept by a filter, do not depend on
    the order of the elements. *)
Lemma repeated_issue_permutation {A} (w : ValidationIssue) (f : A -> bool) l l' :
  Permutation l l' ->
  map (fun _ => w) (filter f l) = map (fun _ => w) (filter f l').
Proof.
  induction 1 as [| x l l' _ IH | x y l | l l' l'' _ IH1 _ IH2]; cbn [filter].
  - reflexivity.
  - destruct (f x); cbn [map]; now rewrite IH.
  - destruct (f x), (f y); reflexivity.
  - now rewrite IH1.
Qed.

Lemma scan_strings cs issues :
  scan order (map VStr cs) issues = Ok (tt, issues ++ flat_map dangerous_warnings cs).
Proof.
  unfold scan. revert issues.
  induction cs as [|c cs IH]; intros issues; cbn [map for_each flat_map].
  - cbn. now rewrite app_nil_r.
  - unfold bind at 1.
    change (for_each (order DANGEROUS_COMMANDS) _ issues)
      with (for_each (order DANGEROUS_COMMANDS)
              (fun dangerous =>
                 when_ (Str.contains dangerous c)
                   (append ((fun _ => Issue WARNING "tools.commands.allowed_commands"
                                        ("Potentially dangerous command: " ++ c)) dangerous)))
              issues).
    rewrite for_each_when_append.
    rewrite (repeated_issue_permutation _ _ _ _ (order_iterates DANGEROUS_COMMANDS)).
    fold (dangerous_warnings c).
    rewrite IH, <- app_assoc. reflexivity.
Qed.

Lemma timeout_check_returns commands :
  exists t, forall issues, timeout_check commands issues = Ok (tt, issues ++ t).
Proof.
  unfold timeout_check.
  destruct (lookup "timeout" commands) as [v|] eqn:H.
  - rewrite (if_present_found _ _ _ _ H). unfold validate_integer_range.
    destruct (negb (isinstance_int v)); [eexists; reflexivity|].
    destruct ((int_of v <? 1) || (int_of v >? 300)); [eexists; reflexivity|].
    exists []. intros issues. cbn. now rewrite app_nil_r.
  - rewrite (if_present_missing _ _ _ H).
    exists []. intros issues. cbn. now rewrite app_nil_r.
Qed.

Lemma dangerous_warnings_nonempty c :
  dangerous_warnings c <> [] <->
  exists dangerous, In dangerous DANGEROUS_COMMANDS /\ substring dangerous c.
Proof.
  unfold dangerous_warnings. split.
  - intros H.
    destruct (filter (fun d => Str.contains d c) DANGEROUS_COMMANDS) as [|d l] eqn:Hf;
      [contradiction|].
    assert (Hin : In d (filter (fun d => Str.contains d c) DANGEROUS_COMMANDS))
      by (rewrite Hf; now left).
    apply filter_In in Hin. destruct Hin as [Hin Hc].
    exists d. split; [assumption | now apply contains_spec].
  - intros (d & Hin & Hsub) H.
    assert (Hf : In d (filter (fun d => Str.contains d c) DANGEROUS_COMMANDS))
      by (apply filter_In; split; [assumption | now apply contains_spec]).
    apply (in_map (fun _ => Issue WARNING "tools.commands.allowed_commands"
                              ("Potentially dangerous command: " ++ c))) in Hf.
    rewrite H in Hf. contradiction.
Qed.

(** The tools table of the scenario with one dangerous command. *)
Lemma tools_rm_rf :
  output (validate_tools order
            (VDict [("commands",
                     VDict [("allowed_commands", VList [VStr "rm -rf /tmp/x"])])]))
  = Ok [Issue WARNING "tools.commands.allowed_commands"
          "Potentially dangerous command: rm -rf /tmp/x"].
Proof.
  unfold validate_tools.
  rewrite (if_present_missing "max_file_size") by reflexivity.
  rewrite (if_present_missing "allowed_extensions") by reflexivity.
  erewrite (if_present_found "commands") by reflexivity.
  erewrite tools_commands_split by reflexivity.
  change [VStr "rm -rf /tmp/x"] with (map VStr ["rm -rf /tmp/x"]).
  unfold output, run, bind. cbn [ret]. unfold timeout_check.
  rewrite (if_present_missing "timeout") by reflexivity. cbn [ret].
  rewrite scan_strings. reflexivity.
Qed.

End CommandScan.

Lemma source_order_iterates : iterates source_order.
Proof. intros elements. apply Permutation_refl. Qed.

(** C7. In a commands table whose [allowed_commands] is a list, every issue
    the scan adds is a WARNING at path "tools.commands.allowed_commands",
    never an ERROR; a command string gets one such warning for each
    dangerous fragment that occurs in it, so at least one exactly when some
    fragment is a substring of it. The document
    [{tools: {commands: {allowed_commands: ["rm -rf /tmp/x"]}}}] gives
    exactly one WARNING and the verdict true. *)
Theorem dangerous_scan_warns order commands cmds :
  iterates order ->
  lookup "allowed_commands" commands = Some (VList cmds) ->
  exists t,
    output (timeout_check commands) = Ok t /\
    (forall out,
        output (validate_tools_commands order (VDict commands)) = Ok out ->
        exists ws,
          out = t ++ ws /\
          Forall (fun i => level i = WARNING /\ path i = "tools.commands.allowed_commands") ws) /\
    (forall cs,
        cmds = map VStr cs ->
        output (validate_tools_commands order (VDict commands))
        = Ok (t ++ flat_map dangerous_warnings cs)) /\
    (forall c,
        dangerous_warnings c <> [] <->
        exists dangerous, In dangerous DANGEROUS_COMMANDS /\ substring dangerous c) /\
    validate_file order
      (holding [("tools", VDict [("commands",
                   VDict [("allowed_commands", VList [VStr "rm -rf /tmp/x"])])])])
      (Pathlib.Path_ "config.toml")
    = Ok (true, [Issue WARNING "tools.commands.allowed_commands"
                   "Potentially dangerous command: rm -rf /tmp/x"]).
Proof.
  intros Hord Hcmds. destruct (timeout_check_returns commands) as [t Ht].
  exists t. rewrite (tools_commands_split _ _ _ Hcmds).
  split; [|split; [|split; [|split]]].
  - unfold output, run. now rewrite Ht.
  - intros out Hout. unfold output, run, bind in Hout. rewrite Ht in Hout.
    cbn [app] in Hout.
    destruct (scan order cmds t) as [[[] o]|e] eqn:Hscan; [|discriminate].
    injection Hout as <-.
    destruct (emits_Ok _ _ _ _ _ (emits_scan order cmds) Hscan) as (ws & _ & HF & ->).
    eauto.
  - intros cs ->. unfold output, run, bind. rewrite Ht. cbn [app].
    now rewrite (scan_strings order Hord).
  - apply dangerous_warnings_nonempty.
  - apply (validate_file_parts order _ _ _ _ _ eq_refl).
    exists [],
      [[]; []; [];
       [Issue WARNING "tools.commands.allowed_commands"
          "Potentially dangerous command: rm -rf /tmp/x"];
       []; []; []; []; []; []; []; []; []; []],
      [].
    split; [reflexivity|]. split; [|repeat split].
    repeat constructor; try reflexivity.
    unfold dispatch. cbn [fst snd].
    erewrite (if_present_found "tools") by reflexivity.
    apply (tools_rm_rf order Hord).
Qed.

Lemma dangerous_scan_warns_witness :
  output (validate_tools_commands source_order
            (VDict [("timeout", VInt 0);
                    ("allowed_commands", VList [VStr "ls -la"; VStr "cat a >> b"])]))
  = Ok [out_of_range "tools.commands.timeout" 1 300;
        Issue WARNING "tools.commands.allowed_commands"
          "Potentially dangerous command: cat a >> b";
        Issue WARNING "tools.commands.allowed_commands"
          "Potentially dangerous command: cat a >> b"].
Proof.
  destruct (dangerous_scan_warns source_order
              [("timeout", VInt 0);
               ("allowed_commands", VList [VStr "ls -la"; VStr "cat a >> b"])]
              [VStr "ls -la"; VStr "cat a >> b"] source_order_iterates eq_refl)
    as (t & Ht & _ & Hstrings & _).
  rewrite (Hstrings ["ls -la"; "cat a >> b"] eq_refl).
  injection Ht as <-. reflexivity.
Defined.

(** ** The order of the issues *)

Section Order.

Lemma lookup_swap k (x y : string * value) d :
  fst x <> fst y -> lookup k (x :: y :: d) = lookup k (y :: x :: d).
Proof.
  destruct x as [kx vx], y as [ky vy]. cbn. intros Hne.
  destruct (String.eqb_spec k kx), (String.eqb_spec k ky); congruence.
Qed.

(** A dict read by key does not depend on the order of its entries. *)
Lemma lookup_permutation k d d' :
  NoDup (keys d) -> Permutation d d' -> lookup k d = lookup k d'.
Proof.
  intros Hnd Hperm. induction Hperm as [| [kx vx] l l' Hp IH | x y l | l l' l'' H1 IH1 H2 IH2].
  - reflexivity.
  - cbn. inversion Hnd; subst. now rewrite IH.
  - symmetry. apply lookup_swap. cbn in Hnd. inversion Hnd as [|? ? Hnotin _]; subst.
    intros E. apply Hnotin. left. now symmetry.
  - rewrite IH1 by assumption. apply IH2.
    unfold keys. eapply Permutation_NoDup; [apply Permutation_map; eassumption | assumption].
Qed.

Lemma Forall2_impl_in {A B} (R R' : A -> B -> Prop) l l' :
  (forall x y, In x l -> R x y -> R' x y) -> Forall2 R l l' -> Forall2 R' l l'.
Proof.
  intros Himp HF. induction HF as [|x y l l' Hxy HF IH]; constructor.
  - apply Himp; [now left | assumption].
  - apply IH. intros a b Hin. apply Himp. now right.
Qed.

End Order.

(** C8. The issues of a parsed document come in three blocks: the warnings
    of the structural scan, then the issues of the sections in the order
    api, repl, logging, tools, session, ui, response, network, security,
    debug, aliases, models, prompts, features, then the issues of the
    cross-validation. The block of the sections is the same for every
    order of the keys in the document. *)
Theorem issues_in_stage_order order fs p config ok issues :
  fs (Pathlib.str p) = Loaded config ->
  validate_file order fs p = Ok (ok, issues) ->
  exists structural parts cross,
    issues = structural ++ List.concat parts ++ cross /\
    output (validate_structure config) = Ok structural /\
    Forall2 (fun sec part => output (dispatch config sec) = Ok part) (sections order) parts /\
    map fst (sections order)
    = ["api"; "repl"; "logging"; "tools"; "session"; "ui"; "response"; "network";
       "security"; "debug"; "aliases"; "models"; "prompts"; "features"] /\
    output (cross_validate config) = Ok cross /\
    forall config',
      NoDup (keys config) -> Permutation config config' ->
      Forall2 (fun sec part => output (dispatch config' sec) = Ok part) (sections order) parts.
Proof.
  intros Hfs H. apply (validate_file_parts order _ _ _ _ _ Hfs) in H.
  destruct H as (structural & parts & cross & Hs & Hparts & Hcross & -> & _).
  exists structural, parts, cross.
  repeat split; try assumption.
  intros config' Hnd Hperm.
  eapply Forall2_impl_in; [|exact Hparts].
  intros sec part _ Hpart. unfold dispatch in *.
  now rewrite <- (if_present_same_lookup _ _ _ _ (lookup_permutation (fst sec) _ _ Hnd Hperm)).
Qed.

(** ** Unknown top-level keys *)

Section UnknownKeys.

Lemma Ok_inj {A} (a b : A) : Ok a = Ok b -> a = b.
Proof. now intros [= ->]. Qed.

Lemma unknown_table_inj k k' : unknown_table k = unknown_table k' -> k = k'.
Proof. unfold unknown_table. intros H. injection H as H. exact H. Qed.

Lemma lookup_remove_key name k config :
  name <> k -> lookup name (remove_key k config) = lookup name config.
Proof.
  intros Hne. unfold remove_key.
  induction config as [|[k' v] config IH]; cbn [filter fst lookup]; [reflexivity|].
  destruct (String.eqb_spec k' k) as [->|Hk]; cbn [negb lookup].
  - rewrite IH. destruct (String.eqb_spec name k); congruence.
  - now rewrite IH.
Qed.

Lemma keys_remove_key k config :
  keys (remove_key k config) = filter (fun x => negb (String.eqb x k)) (keys config).
Proof.
  unfold remove_key, keys.
  induction config as [|[k' v] config IH]; cbn [filter map fst]; [reflexivity|].
  destruct (String.eqb k' k); cbn [negb map fst]; now rewrite IH.
Qed.

Lemma filter_absent k l :
  ~ In k l -> filter (fun x => negb (String.eqb x k)) l = l.
Proof.
  induction l as [|x l IH]; cbn; intros H; [reflexivity|].
  destruct (String.eqb_spec x k) as [->|_]; cbn.
  - exfalso. apply H. now left.
  - rewrite IH; [reflexivity | tauto].
Qed.

Lemma mem_valid_tables name :
  In name valid_tables -> Str.mem name valid_tables = true.
Proof.
  intros H. unfold Str.mem. apply existsb_exists. exists name.
  split; [assumption | apply String.eqb_refl].
Qed.

Lemma sections_named order sec :
  In sec (sections order) -> In (fst sec) valid_tables.
Proof.
  unfold sections, valid_tables. cbn.
  intros H; repeat (destruct H as [<- | H]; [cbn; tauto|]); contradiction.
Qed.

Lemma cross_validate_same_lookup config config' :
  lookup "logging" config = lookup "logging" config' ->
  lookup "session" config = lookup "session" config' ->
  cross_validate config = cross_validate config'.
Proof.
  intros Hl Hs. unfold cross_validate, get_default. now rewrite Hl, Hs.
Qed.

Lemma located_parts order config parts :
  Forall2 (fun sec part => output (dispatch config sec) = Ok part) (sections order) parts ->
  Forall located (List.concat parts).
Proof.
  intros HF. apply Forall2_map_l with (f := dispatch config)
    (R := fun m part => output m = Ok part) in HF.
  pose proof (located_sections order config) as Hem.
  induction HF as [|m part ms parts' Hpart HF IH]; cbn [List.concat]; [constructor|].
  inversion Hem; subst. apply Forall_app. split.
  - eapply emits_output; eassumption.
  - auto.
Qed.

End UnknownKeys.

(** C2, as the code has it. A top-level key [k] outside the recognized
    names gives exactly one WARNING, with the empty path and the message
    "Unknown top-level table: k"; the rest of the result is what the
    document without [k] gives, with the same verdict: no ERROR comes from
    [k] and no section routine reads it. *)
Theorem unknown_key_warned_once order p config k ok issues :
  NoDup (keys config) ->
  In k (keys config) ->
  Str.mem k valid_tables = false ->
  validate_file order (holding config) p = Ok (ok, issues) ->
  exists before after,
    issues = before ++ Issue WARNING "" ("Unknown top-level table: " ++ k) :: after /\
    ~ In (unknown_table k) before /\
    ~ In (unknown_table k) after /\
    validate_file order (holding (remove_key k config)) p = Ok (ok, before ++ after).
Proof.
  intros Hnd Hin Hunk H.
  apply (validate_file_parts order _ p config) in H; [|reflexivity].
  destruct H as (structural & parts & cross & Hs & Hparts & Hcross & -> & ->).
  rewrite output_structure in Hs. apply Ok_inj in Hs. subst structural.
  destruct (in_split _ _ Hin) as (l1 & l2 & Hkeys).
  rewrite Hkeys in Hnd |- *.
  apply NoDup_remove_2 in Hnd.
  assert (Hl1 : ~ In k l1) by (intros Hk; apply Hnd, in_or_app; now left).
  assert (Hl2 : ~ In k l2) by (intros Hk; apply Hnd, in_or_app; now right).
  set (unk := fun key => negb (Str.mem key valid_tables)).
  assert (Hfilter : map unknown_table (filter unk (l1 ++ k :: l2))
                    = map unknown_table (filter unk l1)
                        ++ unknown_table k :: map unknown_table (filter unk l2)).
  { rewrite filter_app. cbn [filter].
    replace (unk k) with true by (unfold unk; now rewrite Hunk).
    now rewrite map_app. }
  rewrite Hfilter. clear Hfilter.
  assert (Hnot : forall l, ~ In k l -> ~ In (unknown_table k) (map unknown_table (filter unk l))).
  { intros l Hl Hw. apply in_map_iff in Hw. destruct Hw as (k' & E & Hk').
    apply unknown_table_inj in E. subst k'. apply filter_In in Hk'. tauto. }
  assert (Hempty : forall l, Forall located l -> ~ In (unknown_table k) l).
  { intros l Hl Hw. rewrite Forall_forall in Hl. apply (Hl _ Hw). reflexivity. }
  exists (map unknown_table (filter unk l1)),
         (map unknown_table (filter unk l2) ++ List.concat parts ++ cross).
  split; [|split; [|split]].
  - rewrite <- app_assoc. reflexivity.
  - auto.
  - intros Hw. apply in_app_or in Hw. destruct Hw as [Hw | Hw]; [now apply (Hnot l2)|].
    apply in_app_or in Hw. destruct Hw as [Hw | Hw].
    + revert Hw. apply Hempty. eapply located_parts; eassumption.
    + revert Hw. apply Hempty. eapply emits_output; [apply located_cross | eassumption].
  - assert (Hsame : forall name, In name valid_tables ->
                      lookup name (remove_key k config) = lookup name config).
    { intros name Hname. apply lookup_remove_key. intros ->.
      apply mem_valid_tables in Hname. congruence. }
    apply (validate_file_parts order _ p (remove_key k config)); [reflexivity|].
    exists (map unknown_table (filter unk l1) ++ map unknown_table (filter unk l2)),
           parts, cross.
    split; [|split; [|split; [|split]]].
    + rewrite output_structure, keys_remove_key, Hkeys, filter_app. cbn [filter].
      rewrite String.eqb_refl. cbn [negb].
      rewrite !filter_absent by assumption.
      fold unk. now rewrite filter_app, map_app.
    + eapply Forall2_impl_in; [|exact Hparts].
      intros sec part Hsec Hpart. unfold dispatch in *.
      rewrite (if_present_same_lookup _ _ config); [assumption|].
      apply Hsame, (sections_named order), Hsec.
    + rewrite (cross_validate_same_lookup _ config); [assumption | |];
        apply Hsame; cbn; tauto.
    + now rewrite <- app_assoc.
    + f_equal. rewrite <- !app_assoc. rewrite !existsb_app.
      cbn [app existsb is_error level unknown_table]. reflexivity.
Qed.

Lemma unknown_key_warned_once_witness :
  exists before after,
    [unknown_table "plugins";
     Issue ERROR "api.model"
       ("Invalid model: bogus-model. Valid models: " ++ Str.join ", " VALID_MODELS)]
    = before ++ Issue WARNING "" ("Unknown top-level table: " ++ "plugins") :: after /\
    ~ In (unknown_table "plugins") before /\
    ~ In (unknown_table "plugins") after /\
    validate_file source_order (holding (remove_key "plugins" document_with_unknown_key))
      (Pathlib.Path_ "config.toml")
    = Ok (false, before ++ after).
Proof.
  apply (unknown_key_warned_once source_order (Pathlib.Path_ "config.toml")
           document_with_unknown_key
           "plugins" false).
  - repeat constructor; cbn; intuition discriminate.
  - cbn. tauto.
  - reflexivity.
  - reflexivity.
Defined.

(** C2 does not hold of the path: for the unknown key "plugins" the one warning has
    the empty path, and no issue has the path "plugins". *)
Lemma unknown_key_path_counterexample :
  validate_file source_order (holding [("plugins", VInt 1)]) (Pathlib.Path_ "config.toml")
  = Ok (true, [Issue WARNING "" "Unknown top-level table: plugins"]) /\
  filter (fun i => String.eqb (path i) "plugins")
    [Issue WARNING "" "Unknown top-level table: plugins"] = [].
Proof. split; reflexivity. Qed.

Lemma issues_in_stage_order_witness :
  exists structural parts cross,
    [unknown_table "plugins";
     out_of_range "api.timeout" 1 300;
     out_of_range "logging.max_files" 1 100;
     no_default_dir]
    = structural ++ List.concat parts ++ cross /\
    output (validate_structure document_out_of_order) = Ok structural /\
    Forall2 (fun sec part => output (dispatch document_out_of_order sec) = Ok part)
      (sections source_order) parts /\
    map fst (sections source_order)
    = ["api"; "repl"; "logging"; "tools"; "session"; "ui"; "response"; "network";
       "security"; "debug"; "aliases"; "models"; "prompts"; "features"] /\
    output (cross_validate document_out_of_order) = Ok cross /\
    forall config',
      NoDup (keys document_out_of_order) -> Permutation document_out_of_order config' ->
      Forall2 (fun sec part => output (dispatch config' sec) = Ok part)
        (sections source_order) parts.
Proof.
  apply (issues_in_stage_order source_order (holding document_out_of_order)
           (Pathlib.Path_ "config.toml")
           document_out_of_order false).
  - reflexivity.
  - reflexivity.
Defined.

(** ** The schema dump *)

(** C9. With [--generate-schema] as first argument, [main] prints the
    schema built from the constants of the class and returns. The list
    under "enum" is [list(cls.VALID_MODELS)], the set of models in the
    order the process iterates it: two calls that iterate this one set in
    the same order, as two calls in one process do, print the same text,
    whatever the file system, the home directory and the further
    arguments are. *)
Theorem schema_dump_is_static p1 p2 :
  nth_error (Cli.argv p1) 1 = Some "--generate-schema" ->
  nth_error (Cli.argv p2) 1 = Some "--generate-schema" ->
  Cli.set_order p1 VALID_MODELS = Cli.set_order p2 VALID_MODELS ->
  Cli.main p1 = Ok ([Json.dumps 0 (Cli.schema (Cli.set_order p1))], None) /\
  Cli.main p1 = Cli.main p2.
Proof.
  intros H1 H2 Hord. unfold Cli.main. rewrite H1, H2. cbn [String.eqb Ascii.eqb Bool.eqb].
  split; [reflexivity|]. unfold Cli.schema. rewrite Hord. reflexivity.
Qed.

Lemma schema_dump_is_static_witness :
  Cli.main (Cli.Process ["validate_config.py"; "--generate-schema"] "/home/user"
              (holding document_out_of_order) source_order)
  = Ok ([Json.dumps 0 (Cli.schema source_order)], None) /\
  Cli.main (Cli.Process ["validate_config.py"; "--generate-schema"] "/home/user"
              (holding document_out_of_order) source_order)
  = Cli.main (Cli.Process ["validate_config.py"; "--generate-schema"; "config.toml"] "/root"
                (fun _ => NotFound)
                (fun elements => if Nat.eqb (List.length elements) 5 then elements
                                 else rev elements)).
Proof.
  apply (schema_dump_is_static
           (Cli.Process ["validate_config.py"; "--generate-schema"] "/home/user"
              (holding document_out_of_order) source_order)
           (Cli.Process ["validate_config.py"; "--generate-schema"; "config.toml"] "/root"
              (fun _ => NotFound)
              (fun elements => if Nat.eqb (List.length elements) 5 then elements
                               else rev elements)));
    reflexivity.
Defined.

(** C9 does not hold of the constants alone: the text depends on the order
    in which the process iterates the set of models. Two processes with
    the same arguments, home directory and files, one iterating the set as
    it is written and one in the reverse order, print different texts. *)
Lemma schema_dump_order_counterexample :
  Permutation (source_order VALID_MODELS) VALID_MODELS /\
  Permutation (rev VALID_MODELS) VALID_MODELS /\
  Cli.main (Cli.Process ["validate_config.py"; "--generate-schema"] "/home/user"
              (holding []) source_order)
  <> Cli.main (Cli.Process ["validate_config.py"; "--generate-schema"] "/home/user"
                 (holding []) (@rev string)).
Proof.
  split; [apply source_order_iterates|].
  split; [symmetry; apply Permutation_rev|].
  intros H. vm_compute in H. discriminate H.
Qed.


(** * Further properties of the validator *)

(** ** Levels and paths of the issues *)

Ltac section_leaf := unfold section_issue, under; cbn; split; [reflexivity | discriminate].

Ltac section_step :=
  first
    [ apply emits_integer_range; intros ?
    | apply emits_float_range; intros ?
    | apply emits_boolean; intros ?
    | emits_step ].

Ltac section_auto := repeat section_step; try solve [section_leaf].

Section SectionPaths.

Variable order : list string -> list string.

Lemma section_api v : emits (section_issue "api") (validate_api order v).
Proof. unfold validate_api, add_error, add_warning. section_auto. Qed.

Lemma section_repl v : emits (section_issue "repl") (validate_repl v).
Proof. unfold validate_repl, validate_bool_fields. section_auto. Qed.

Lemma section_logging v : emits (section_issue "logging") (validate_logging order v).
Proof. unfold validate_logging, add_error. section_auto. Qed.

Lemma section_tools v : emits (section_issue "tools") (validate_tools order v).
Proof.
  unfold validate_tools, validate_tools_commands, add_error, add_warning. section_auto.
Qed.

Lemma section_session v : emits (section_issue "session") (validate_session order v).
Proof. unfold validate_session, add_error. section_auto. Qed.

Lemma section_ui v : emits (section_issue "ui") (validate_ui order v).
Proof. unfold validate_ui, add_error, add_warning. section_auto. Qed.

Lemma section_response v : emits (section_issue "response") (validate_response order v).
Proof. unfold validate_response, add_error. section_auto. Qed.

Lemma section_network v : emits (section_issue "network") (validate_network v).
Proof. unfold validate_network, add_error. section_auto. Qed.

Lemma section_security v : emits (section_issue "security") (validate_security v).
Proof. unfold validate_security, validate_bool_fields. section_auto. Qed.

Lemma section_debug v : emits (section_issue "debug") (validate_debug v).
Proof. unfold validate_debug, validate_bool_fields. section_auto. Qed.

Lemma section_aliases v : emits (section_issue "aliases") (validate_aliases v).
Proof. unfold validate_aliases, add_error. section_auto. Qed.

Lemma section_models v : emits (section_issue "models") (validate_models v).
Proof. unfold validate_models. section_auto. Qed.

Lemma section_prompts v : emits (section_issue "prompts") (validate_prompts v).
Proof. unfold validate_prompts, add_error. section_auto. Qed.

Lemma section_features v : emits (section_issue "features") (validate_features v).
Proof. unfold validate_features. section_auto. Qed.

Lemma section_routines sec :
  In sec (sections order) -> forall v, emits (section_issue (fst sec)) (snd sec v).
Proof.
  unfold sections. cbn [In].
  intros H; repeat (destruct H as [<- | H]; [cbn [fst snd]|]); try contradiction;
    auto using section_api, section_repl, section_logging, section_tools,
      section_session, section_ui, section_response, section_network,
      section_security, section_debug, section_aliases, section_models,
      section_prompts, section_features.
Qed.

End SectionPaths.

Section ResultShape.

Variable order : list string -> list string.

Lemma dispatch_emits config sec :
  In sec (sections order) -> emits (section_issue (fst sec)) (dispatch config sec).
Proof.
  intros Hsec. unfold dispatch. apply emits_if_present. now apply (section_routines order).
Qed.

Lemma section_parts config l parts :
  (forall sec, In sec l -> In sec (sections order)) ->
  Forall2 (fun sec part => output (dispatch config sec) = Ok part) l parts ->
  Forall (fun i => exists name, In name valid_tables /\ section_issue name i)
    (List.concat parts).
Proof.
  intros Hl HF. induction HF as [|sec part l parts' Hpart HF IH]; cbn [List.concat].
  - constructor.
  - apply Forall_app. split.
    + assert (Hsec : In sec (sections order)) by (apply Hl; now left).
      destruct (emits_output _ _ _ (dispatch_emits config sec Hsec) Hpart) as [HP _].
      eapply Forall_impl; [|exact HP]. intros i Hi.
      exists (fst sec). split; [now apply (sections_named order) | assumption].
    + apply IH. intros sec' Hsec'. apply Hl. now right.
Qed.

Lemma validate_file_verdict fs p ok issues :
  validate_file order fs p = Ok (ok, issues) -> ok = negb (existsb is_error issues).
Proof.
  intros H. destruct (fs (Pathlib.str p)) as [| e | e | config] eqn:Hfs.
  1-3: unfold validate_file in H; rewrite Hfs in H; cbn in H;
       injection H as <- <-; reflexivity.
  apply (validate_file_parts order _ _ _ _ _ Hfs) in H.
  now destruct H as (_ & _ & _ & _ & _ & _ & _ & ->).
Qed.

End ResultShape.

(** Every issue of a parsed document is a warning of the structural scan
    with the empty path, one of the two cross-validation warnings, or an
    issue of a section routine under that section's name; so every ERROR
    has a path that begins with the name of a recognized section and a
    dot. *)
Theorem issues_classified order fs p config ok issues :
  fs (Pathlib.str p) = Loaded config ->
  validate_file order fs p = Ok (ok, issues) ->
  Forall (fun i =>
            (exists key, i = unknown_table key /\ In key (keys config)
                         /\ Str.mem key valid_tables = false) \/
            i = no_log_file \/ i = no_default_dir \/
            exists name, In name valid_tables /\ under name i) issues /\
  Forall (fun i => level i = ERROR ->
                   exists name, In name valid_tables /\ under name i) issues.
Proof.
  intros Hfs H. apply (validate_file_parts order _ _ _ _ _ Hfs) in H.
  destruct H as (structural & parts & cross & Hs & Hparts & Hcross & -> & _).
  destruct (emits_output _ _ _ (emits_structure config) Hs) as [Hstructural _].
  destruct (emits_output _ _ _ (emits_cross config) Hcross) as [Hcr _].
  pose proof (section_parts order config _ _ (fun _ H => H) Hparts) as Hsecs.
  assert (Hall : Forall (fun i =>
            (exists key, i = unknown_table key /\ In key (keys config)
                         /\ Str.mem key valid_tables = false) \/
            i = no_log_file \/ i = no_default_dir \/
            exists name, In name valid_tables /\ under name i)
            (structural ++ List.concat parts ++ cross)).
  { repeat (apply Forall_app; split).
    - eapply Forall_impl; [|exact Hstructural]. intros i Hi. now left.
    - eapply Forall_impl; [|exact Hsecs]. intros i (name & Hname & Hunder & _).
      right. right. right. eauto.
    - eapply Forall_impl; [|exact Hcr]. intros i [-> | ->]; auto. }
  split; [exact Hall|].
  eapply Forall_impl; [|exact Hall].
  intros i [(key & -> & _) | [-> | [-> | Hi]]]; cbn; try discriminate. auto.
Qed.

Lemma issues_classified_witness :
  Forall (fun i => level i = ERROR ->
                   exists name, In name valid_tables /\ under name i)
    [unknown_table "plugins";
     out_of_range "api.timeout" 1 300;
     out_of_range "logging.max_files" 1 100;
     no_default_dir].
Proof.
  apply (issues_classified source_order (holding document_out_of_order)
           (Pathlib.Path_ "config.toml") document_out_of_order false);
    reflexivity.
Defined.

(** [validate_file] never reports an issue of level INFO, whatever the
    source: [add_info] is not called on any path. *)
Theorem no_info_issue order fs p ok issues :
  validate_file order fs p = Ok (ok, issues) ->
  Forall (fun i => level i <> INFO) issues.
Proof.
  intros H. destruct (fs (Pathlib.str p)) as [| e | e | config] eqn:Hfs.
  1-3: unfold validate_file in H; rewrite Hfs in H; cbn in H;
       injection H as <- <-; repeat constructor; discriminate.
  apply (validate_file_parts order _ _ _ _ _ Hfs) in H.
  destruct H as (structural & parts & cross & Hs & Hparts & Hcross & -> & _).
  destruct (emits_output _ _ _ (emits_structure config) Hs) as [Hstructural _].
  destruct (emits_output _ _ _ (emits_cross config) Hcross) as [Hcr _].
  pose proof (section_parts order config _ _ (fun _ H => H) Hparts) as Hsecs.
  repeat (apply Forall_app; split).
  - eapply Forall_impl; [|exact Hstructural]. intros i (key & -> & _). discriminate.
  - eapply Forall_impl; [|exact Hsecs]. intros i (name & _ & _ & Hi). exact Hi.
  - eapply Forall_impl; [|exact Hcr]. intros i [-> | ->]; discriminate.
Qed.

Lemma no_info_issue_witness :
  Forall (fun i => level i <> INFO)
    [unknown_table "plugins";
     out_of_range "api.timeout" 1 300;
     out_of_range "logging.max_files" 1 100;
     no_default_dir].
Proof.
  apply (no_info_issue source_order (holding document_out_of_order)
           (Pathlib.Path_ "config.toml") false).
  reflexivity.
Defined.

(** ** Sections that are not tables *)

Section ScalarSections.

Variable order : list string -> list string.

Lemma routine_scalar sec v :
  In sec (sections order) -> scalar v = true ->
  exists e, forall issues, snd sec v issues = Raise e.
Proof.
  unfold sections. cbn [In].
  intros H Hv; repeat (destruct H as [<- | H]; [cbn [snd]|]); try contradiction;
    destruct v; try discriminate; eexists; reflexivity.
Qed.

Lemma sections_cover name :
  In name valid_tables -> exists routine, In (name, routine) (sections order).
Proof.
  unfold valid_tables, sections. cbn [In].
  intros H; repeat (destruct H as [<- | H]; [eexists; cbn; tauto|]); contradiction.
Qed.

Lemma Forall2_In_l {A B} (R : A -> B -> Prop) l l' x :
  Forall2 R l l' -> In x l -> exists y, R x y.
Proof.
  induction 1 as [|a b l l' Hab _ IH]; intros Hin; [contradiction|].
  destruct Hin as [<- | Hin]; eauto.
Qed.

End ScalarSections.

(** A recognized top-level key that holds a number, a boolean or a date
    makes [validate_file] raise: no result and no issue list is returned. *)
Theorem scalar_section_raises order fs p config name v :
  fs (Pathlib.str p) = Loaded config ->
  In name valid_tables ->
  lookup name config = Some v ->
  scalar v = true ->
  exists e, validate_file order fs p = Raise e.
Proof.
  intros Hfs Hname Hv Hscalar.
  destruct (validate_file order fs p) as [[ok issues]|e] eqn:H; [|eauto].
  exfalso. apply (validate_file_parts order _ _ _ _ _ Hfs) in H.
  destruct H as (_ & parts & _ & _ & Hparts & _).
  destruct (sections_cover order name Hname) as [routine Hsec].
  destruct (Forall2_In_l _ _ _ _ Hparts Hsec) as [part Hpart].
  destruct (routine_scalar order _ v Hsec Hscalar) as [e He].
  unfold dispatch, output, run in Hpart. cbn [fst snd] in *.
  rewrite (if_present_found _ _ _ _ Hv), He in Hpart. discriminate.
Qed.

Lemma scalar_section_raises_witness :
  exists e,
    validate_file source_order
      (holding [("repl", VDict [("vi_mode", VBool true)]); ("debug", VBool true)])
      (Pathlib.Path_ "config.toml")
    = Raise e.
Proof.
  apply (scalar_section_raises source_order _ _
           [("repl", VDict [("vi_mode", VBool true)]); ("debug", VBool true)]
           "debug" (VBool true)).
  - reflexivity.
  - cbn. tauto.
  - reflexivity.
  - reflexivity.
Defined.

(** ** Sections that always return *)

Section Returns.

Lemma returns_ret : returns (ret tt).
Proof. exists []. intros issues. cbn. now rewrite app_nil_r. Qed.

Lemma returns_append i : returns (append i).
Proof. exists [i]. reflexivity. Qed.

Lemma returns_bind (m : M unit) (k : unit -> M unit) :
  returns m -> (forall u, returns (k u)) -> returns (bind m k).
Proof.
  intros [o1 H1] Hk. destruct (Hk tt) as [o2 H2].
  exists (o1 ++ o2). intros issues. unfold bind. rewrite H1, H2.
  now rewrite app_assoc.
Qed.

Lemma returns_when b m : returns m -> returns (when_ b m).
Proof. destruct b; cbn; [auto | intros _; apply returns_ret]. Qed.

Lemma returns_for_each {A} (l : list A) body :
  (forall x, returns (body x)) -> returns (for_each l body).
Proof.
  intros Hb. induction l as [|x l IH]; cbn [for_each].
  - apply returns_ret.
  - apply returns_bind; auto.
Qed.

Lemma returns_if_present k d body :
  (forall v, returns (body v)) -> returns (if_present k (VDict d) body).
Proof.
  intros Hb. destruct (lookup k d) as [v|] eqn:Hk.
  - rewrite (if_present_found _ _ _ _ Hk). apply Hb.
  - rewrite (if_present_missing _ _ _ Hk). apply returns_ret.
Qed.

Lemma returns_integer_range path v lo hi : returns (validate_integer_range path v lo hi).
Proof.
  unfold validate_integer_range.
  destruct (negb (isinstance_int v)); [apply returns_append|].
  destruct ((int_of v <? lo) || (int_of v >? hi)); [apply returns_append | apply returns_ret].
Qed.

Lemma returns_boolean path v : returns (validate_boolean path v).
Proof. unfold validate_boolean. apply returns_when, returns_append. Qed.

Lemma returns_bool_fields section fields d :
  returns (validate_bool_fields section fields (VDict d)).
Proof.
  unfold validate_bool_fields. apply returns_for_each. intros f.
  apply returns_if_present. intros v. apply returns_boolean.
Qed.

Lemma returns_output m : returns m -> exists out, output m = Ok out.
Proof. intros [out H]. exists out. unfold output, run. now rewrite H. Qed.

(** The routines of the robust sections return on every table. *)
Lemma robust_routine_returns order sec d :
  In sec (sections order) -> In (fst sec) robust_sections -> returns (snd sec (VDict d)).
Proof.
  unfold sections, robust_sections. cbn [In].
  intros H Hr; repeat (destruct H as [<- | H]; [cbn [fst snd] in *|]); try contradiction;
    try (exfalso; repeat (destruct Hr as [Hr | Hr]; [discriminate Hr|]); contradiction).
  - unfold validate_repl.
    do 2 (apply returns_bind;
          [apply returns_if_present; intros v; apply returns_integer_range | intros _]).
    apply returns_bool_fields.
  - apply returns_bool_fields.
  - unfold validate_debug. apply returns_bind; [apply returns_bool_fields | intros _].
    apply returns_if_present. intros v. apply returns_integer_range.
  - unfold validate_aliases. cbn [items]. rewrite bind_lift_Ok.
    apply returns_for_each. intros [alias command]. apply returns_when, returns_append.
  - unfold validate_prompts. cbn [items]. rewrite bind_lift_Ok.
    apply returns_for_each. intros [name prompt]. apply returns_when, returns_append.
  - unfold validate_features. cbn [items]. rewrite bind_lift_Ok.
    apply returns_for_each. intros [feature enabled]. apply returns_boolean.
Qed.

End Returns.

Lemma Forall2_exists {A B} (R : A -> B -> Prop) l :
  (forall x, In x l -> exists y, R x y) -> exists l', Forall2 R l l'.
Proof.
  induction l as [|x l IH]; intros H.
  - exists []. constructor.
  - destruct (H x (or_introl eq_refl)) as [y Hy].
    destruct IH as [l' Hl']; [intros; apply H; now right|].
    exists (y :: l'). now constructor.
Qed.

Lemma mem_In x l : Str.mem x l = true -> In x l.
Proof.
  unfold Str.mem. intros H. apply existsb_exists in H.
  destruct H as (y & Hy & E). apply String.eqb_eq in E. now subst.
Qed.

(** A document whose recognized keys are [repl], [security], [debug],
    [aliases], [prompts] or [features], each holding a table, always gets a
    result: [validate_file] does not raise on it, whatever the values in
    those tables and whatever other keys the document has. *)
Theorem robust_document_returns order fs p config :
  fs (Pathlib.str p) = Loaded config ->
  robust_document config = true ->
  exists ok issues, validate_file order fs p = Ok (ok, issues).
Proof.
  intros Hfs Hrobust. unfold robust_document in Hrobust.
  rewrite forallb_forall in Hrobust.
  assert (Hsecs : forall sec, In sec (sections order) ->
                    exists part, output (dispatch config sec) = Ok part).
  { intros sec Hsec. unfold dispatch.
    specialize (Hrobust _ (sections_named order sec Hsec)).
    destruct (lookup (fst sec) config) as [v|] eqn:Hv.
    - destruct v; try discriminate. rewrite (if_present_found _ _ _ _ Hv).
      apply returns_output, (robust_routine_returns order); [assumption|].
      now apply mem_In.
    - rewrite (if_present_missing _ _ _ Hv). exists []. reflexivity. }
  destruct (Forall2_exists _ _ Hsecs) as [parts Hparts].
  assert (Hcross : output (cross_validate config) = Ok []).
  { assert (Hlog : lookup "logging" config = None).
    { specialize (Hrobust "logging"). cbn in Hrobust.
      destruct (lookup "logging" config) as [[]|]; try reflexivity;
        specialize (Hrobust ltac:(tauto)); discriminate. }
    assert (Hses : lookup "session" config = None).
    { specialize (Hrobust "session"). cbn in Hrobust.
      destruct (lookup "session" config) as [[]|]; try reflexivity;
        specialize (Hrobust ltac:(tauto)); discriminate. }
    unfold cross_validate. cbn [get_default]. rewrite Hlog, Hses. reflexivity. }
  do 2 eexists. apply (validate_file_parts order _ _ _ _ _ Hfs).
  eexists _, parts, []. split; [apply output_structure|].
  repeat split; assumption.
Qed.

Lemma robust_document_returns_witness :
  exists ok issues,
    validate_file source_order
      (holding [("features", VDict [("beta", VStr "yes")]);
                ("plugins", VInt 1);
                ("repl", VDict [("history_size", VStr "many"); ("vi_mode", VList [])])])
      (Pathlib.Path_ "config.toml")
    = Ok (ok, issues).
Proof.
  apply (robust_document_returns source_order _ _
           [("features", VDict [("beta", VStr "yes")]);
            ("plugins", VInt 1);
            ("repl", VDict [("history_size", VStr "many"); ("vi_mode", VList [])])]);
    reflexivity.
Defined.

(** ** Fields a section does not know *)

Ltac same_lookups k table Hl :=
  cbn [for_each]; unfold contains, has_key;
  repeat rewrite (if_present_same_lookup _ (remove_key k table) table)
    by (apply Hl; cbn; tauto);
  rewrite ?Hl by (cbn; tauto);
  reflexivity.

(** In a section with fixed fields, a key that is none of its fields is not
    read: the routine does on the table what it does on the table without
    that key, so an unknown field gives no issue and no exception. *)
Theorem unknown_field_ignored order name routine fields table k :
  In (name, routine) (sections order) ->
  In (name, fields) known_fields ->
  ~ In k fields ->
  routine (VDict (remove_key k table)) = routine (VDict table).
Proof.
  intros Hsec Hf Hk.
  assert (Hl : forall field, In field fields ->
                 lookup field (remove_key k table) = lookup field table)
    by (intros field Hn; apply lookup_remove_key; intros ->; contradiction).
  unfold known_fields in Hf. cbn [In] in Hf.
  unfold sections in Hsec. cbn [In] in Hsec.
  repeat (destruct Hf as [Hf | Hf]; [inversion Hf; subst name fields; clear Hf|]);
    try contradiction;
    repeat (destruct Hsec as [Hsec | Hsec];
            [try discriminate Hsec; inversion Hsec; subst routine; clear Hsec|]);
    try contradiction.
  - unfold validate_api. same_lookups k table Hl.
  - unfold validate_repl, validate_bool_fields. same_lookups k table Hl.
  - unfold validate_logging. same_lookups k table Hl.
  - unfold validate_tools. same_lookups k table Hl.
  - unfold validate_session. same_lookups k table Hl.
  - unfold validate_ui. same_lookups k table Hl.
  - unfold validate_response. same_lookups k table Hl.
  - unfold validate_network. same_lookups k table Hl.
  - unfold validate_security, validate_bool_fields. same_lookups k table Hl.
  - unfold validate_debug, validate_bool_fields. same_lookups k table Hl.
Qed.

Lemma unknown_field_ignored_witness :
  validate_network
    (VDict (remove_key "retries"
              [("retries", VList [VInt 3]); ("timeout_read", VInt 500)]))
  = validate_network (VDict [("retries", VList [VInt 3]); ("timeout_read", VInt 500)]).
Proof.
  apply (unknown_field_ignored source_order "network" validate_network
           ["proxy_url"; "timeout_connect"; "timeout_read"]).
  - cbn. tauto.
  - cbn. tauto.
  - cbn. intuition discriminate.
Defined.

(** ** Aliases and prompts *)

Section StringEntries.

Lemma aliases_run table issues :
  validate_aliases (VDict table) issues
  = Ok (tt, issues ++ flat_map (fun kv => if isinstance_str (snd kv) then []
                                          else [Issue ERROR ("aliases." ++ fst kv)
                                                  "Alias target must be a string"]) table).
Proof.
  unfold validate_aliases. cbn [items]. rewrite bind_lift_Ok. revert issues.
  induction table as [|[alias command] table IH]; intros issues; cbn [for_each flat_map].
  - cbn. now rewrite app_nil_r.
  - unfold bind at 1. cbn [fst snd]. destruct (isinstance_str command); cbn [negb when_].
    + cbn [ret]. apply IH.
    + unfold add_error, append. rewrite IH, <- app_assoc. reflexivity.
Qed.

Lemma prompts_run table issues :
  validate_prompts (VDict table) issues
  = Ok (tt, issues ++ flat_map (fun kv => if isinstance_str (snd kv) then []
                                          else [Issue ERROR ("prompts." ++ fst kv)
                                                  "Prompt must be a string"]) table).
Proof.
  unfold validate_prompts. cbn [items]. rewrite bind_lift_Ok. revert issues.
  induction table as [|[name prompt] table IH]; intros issues; cbn [for_each flat_map].
  - cbn. now rewrite app_nil_r.
  - unfold bind at 1. cbn [fst snd]. destruct (isinstance_str prompt); cbn [negb when_].
    + cbn [ret]. apply IH.
    + unfold add_error, append. rewrite IH, <- app_assoc. reflexivity.
Qed.

End StringEntries.

(** In the aliases table and in the prompts table, an entry whose value is
    not a string gives exactly one ERROR at the entry's own path, and an
    entry whose value is a string gives no issue at that path; neither
    routine raises on a table. *)
Theorem string_entries_checked table name v :
  NoDup (keys table) ->
  In (name, v) table ->
  (exists out,
      output (validate_aliases (VDict table)) = Ok out /\
      issues_at ("aliases." ++ name) out
      = if isinstance_str v then []
        else [Issue ERROR ("aliases." ++ name) "Alias target must be a string"]) /\
  (exists out,
      output (validate_prompts (VDict table)) = Ok out /\
      issues_at ("prompts." ++ name) out
      = if isinstance_str v then []
        else [Issue ERROR ("prompts." ++ name) "Prompt must be a string"]).
Proof.
  intros Hnd Hin. split.
  - eexists. split; [unfold output, run; now rewrite aliases_run|].
    cbn [app].
    change (issues_at ("aliases." ++ name)) with (issues_at ("aliases." ++ fst (name, v))).
    rewrite (issues_at_flat_map fst "aliases." _ table (name, v)); try assumption.
    + reflexivity.
    + intros [a c]. cbn [fst snd]. destruct (isinstance_str c); repeat constructor.
  - eexists. split; [unfold output, run; now rewrite prompts_run|].
    cbn [app].
    change (issues_at ("prompts." ++ name)) with (issues_at ("prompts." ++ fst (name, v))).
    rewrite (issues_at_flat_map fst "prompts." _ table (name, v)); try assumption.
    + reflexivity.
    + intros [a c]. cbn [fst snd]. destruct (isinstance_str c); repeat constructor.
Qed.

Lemma string_entries_checked_witness :
  (exists out,
      output (validate_aliases (VDict [("ll", VStr "ls -l"); ("g", VInt 7)])) = Ok out /\
      issues_at ("aliases." ++ "g") out
      = if isinstance_str (VInt 7) then []
        else [Issue ERROR ("aliases." ++ "g") "Alias target must be a string"]) /\
  (exists out,
      output (validate_prompts (VDict [("ll", VStr "ls -l"); ("g", VInt 7)])) = Ok out /\
      issues_at ("prompts." ++ "g") out
      = if isinstance_str (VInt 7) then []
        else [Issue ERROR ("prompts." ++ "g") "Prompt must be a string"]).
Proof.
  apply (string_entries_checked [("ll", VStr "ls -l"); ("g", VInt 7)] "g" (VInt 7)).
  - repeat constructor; cbn; intuition discriminate.
  - cbn. tauto.
Defined.

(** ** Allowed extensions *)

Section Extensions.

Lemma output_bind P Q (m : M unit) (k : unit -> M unit) out :
  emits P m -> (forall u, emits Q (k u)) ->
  output (bind m k) = Ok out ->
  exists o1 o2,
    output m = Ok o1 /\ output (k tt) = Ok o2 /\ out = o1 ++ o2 /\
    Forall P o1 /\ Forall Q o2.
Proof.
  intros Hm Hk Hout. unfold output, run in Hout.
  destruct (bind m k []) as [[[] o]|e] eqn:Hb; [|discriminate].
  apply Ok_inj in Hout. subst o.
  apply bind_Ok in Hb. destruct Hb as ([] & mid & Hm1 & Hk1).
  destruct (emits_Ok _ _ _ _ _ Hm Hm1) as (o1 & Ho1 & HP & ->).
  destruct (emits_Ok _ _ _ _ _ (Hk tt) Hk1) as (o2 & Ho2 & HQ & ->).
  exists o1, o2. auto.
Qed.

Lemma issues_at_none p l : Forall (fun i => path i <> p) l -> issues_at p l = [].
Proof.
  unfold issues_at. induction 1 as [|i l Hi _ IH]; cbn; [reflexivity|].
  destruct (String.eqb_spec (path i) p); [contradiction | assumption].
Qed.

Lemma issues_at_all p l : Forall (fun i => path i = p) l -> issues_at p l = l.
Proof.
  unfold issues_at. induction 1 as [|i l Hi _ IH]; cbn; [reflexivity|].
  rewrite (proj2 (String.eqb_eq _ _) Hi). now f_equal.
Qed.

Lemma issues_at_app p l l' : issues_at p (l ++ l') = issues_at p l ++ issues_at p l'.
Proof. apply filter_app. Qed.

End Extensions.

(** The issues at path "tools.allowed_extensions", whatever else a tools
    table of ASCII strings and of integers of at most 4300 digits holds:
    for a list, one ERROR for each element that is not a string beginning
    with a dot, in the order of the list, each naming its element; for a
    value that is not a list, the single ERROR "Must be an array of
    strings". *)
Theorem extensions_flagged_one_by_one order tools v out :
  plain (VDict tools) = true ->
  lookup "allowed_extensions" tools = Some v ->
  output (validate_tools order (VDict tools)) = Ok out ->
  issues_at "tools.allowed_extensions" out
  = match v with
    | VList exts =>
        map (fun ext => Issue ERROR "tools.allowed_extensions"
                          ("Invalid extension format: " ++ str ext
                             ++ ". Must start with '.'"))
            (filter bad_extension exts)
    | _ => [Issue ERROR "tools.allowed_extensions" "Must be an array of strings"]
    end.
Proof.
  intros _ Hv Hout. unfold validate_tools in Hout.
  apply (output_bind (fun i => path i = "tools.max_file_size")
           (fun i => path i <> "tools.max_file_size")) in Hout.
  2: { unfold add_error. emits_with ltac:(reflexivity). }
  2: { intros _. unfold validate_tools_commands, add_error, add_warning.
       located_auto; cbn; discriminate. }
  destruct Hout as (size & rest & _ & Hrest & -> & Hsize & _).
  apply (output_bind (fun i => path i = "tools.allowed_extensions")
           (under "tools.commands")) in Hrest.
  2: { unfold add_error. emits_with ltac:(reflexivity). }
  2: { intros _. unfold validate_tools_commands, add_error, add_warning.
       section_auto; reflexivity. }
  destruct Hrest as (exts_out & commands & Hexts & _ & -> & Hat & Hcommands).
  rewrite !issues_at_app.
  rewrite (issues_at_none _ size), (issues_at_none _ commands), (issues_at_all _ _ Hat).
  - cbn [app]. rewrite app_nil_r.
    rewrite (if_present_found _ _ _ _ Hv) in Hexts.
    unfold output, run in Hexts.
    destruct v; try (cbn in Hexts; now apply Ok_inj in Hexts).
    unfold add_error in Hexts.
    rewrite (for_each_when_append bad_extension
               (fun ext => Issue ERROR "tools.allowed_extensions"
                             ("Invalid extension format: " ++ str ext
                                ++ ". Must start with '.'"))) in Hexts.
    now apply Ok_inj in Hexts.
  - eapply Forall_impl; [|exact Hcommands]. unfold under. intros i Hi E.
    rewrite E in Hi. discriminate.
  - eapply Forall_impl; [|exact Hsize]. intros i Hi. rewrite Hi. discriminate.
Qed.

Lemma extensions_flagged_one_by_one_witness :
  issues_at "tools.allowed_extensions"
    [Issue ERROR "tools.max_file_size" "Invalid size format";
     Issue ERROR "tools.allowed_extensions"
       "Invalid extension format: txt. Must start with '.'";
     Issue ERROR "tools.allowed_extensions"
       "Invalid extension format: 5. Must start with '.'"]
  = map (fun ext => Issue ERROR "tools.allowed_extensions"
                      ("Invalid extension format: " ++ str ext ++ ". Must start with '.'"))
      (filter bad_extension [VStr ".py"; VStr "txt"; VInt 5]).
Proof.
  apply (extensions_flagged_one_by_one source_order
           [("max_file_size", VStr "big");
            ("allowed_extensions", VList [VStr ".py"; VStr "txt"; VInt 5])]
           (VList [VStr ".py"; VStr "txt"; VInt 5]));
    [vm_compute; reflexivity | reflexivity | reflexivity].
Defined.

(** ** The report of the command line *)

Section Report.

Lemma report_partition (l : list ValidationIssue) :
  Permutation
    (map (Cli.issue_line "❌ ERROR: ") (filter is_error l)
       ++ map (Cli.issue_line "⚠️  WARNING: ") (filter is_warning l)
       ++ map (Cli.issue_line "ℹ️  INFO: ") (filter is_info l))
    (map report_line l).
Proof.
  induction l as [|[lv pa ms] l IH]; [constructor|].
  unfold is_error, is_warning, is_info, report_line at 1.
  cbn [filter map level]. destruct lv; cbn [map app].
  - now constructor.
  - apply Permutation_sym, Permutation_cons_app, Permutation_sym, IH.
  - rewrite app_assoc.
    apply Permutation_sym, Permutation_cons_app, Permutation_sym.
    rewrite <- app_assoc. exact IH.
Qed.

Lemma filter_is_error_nil l : filter is_error l = [] <-> existsb is_error l = false.
Proof.
  rewrite existsb_false_filter. split; [intros ->; reflexivity|].
  destruct (filter is_error l); [reflexivity | discriminate].
Qed.

End Report.

(** Outside the schema mode, [main] validates the path of its first
    argument (or the file in the home directory) and returns 1 when the
    verdict is false and 0 when it is true. For an empty issue list it
    prints one line; otherwise it prints every issue exactly once (ERRORs
    first, then WARNINGs, then INFOs) and then the summary line. *)
Theorem main_reports_every_issue p lines code :
  nth_error (Cli.argv p) 1 <> Some "--generate-schema" ->
  Cli.main p = Ok (lines, code) ->
  exists ok issues,
    validate_file (Cli.set_order p) (Cli.files p) (config_path p) = Ok (ok, issues) /\
    code = Some (if ok then 0 else 1) /\
    match issues with
    | [] => List.length lines = 1%nat
    | _ => exists body summary,
             lines = body ++ [summary] /\ Permutation body (map report_line issues)
    end.
Proof.
  intros Hmode Hmain.
  assert (Hrun : Cli.validate_and_report (Cli.set_order p) (Cli.files p) (config_path p)
                 = Ok (lines, code)).
  { unfold Cli.main in Hmain. unfold config_path.
    destruct (nth_error (Cli.argv p) 1) as [arg|]; [|exact Hmain].
    destruct (String.eqb_spec arg "--generate-schema") as [->|_]; [|exact Hmain].
    now contradiction Hmode. }
  unfold Cli.validate_and_report in Hrun.
  destruct (validate_file (Cli.set_order p) (Cli.files p) (config_path p))
    as [[ok issues]|e] eqn:Hv; [|discriminate].
  exists ok, issues. split; [reflexivity|].
  apply validate_file_verdict in Hv.
  destruct issues as [|i issues].
  - apply Ok_inj, pair_equal_spec in Hrun. destruct Hrun as [<- <-]. subst ok. auto.
  - apply Ok_inj, pair_equal_spec in Hrun. destruct Hrun as [<- <-]. split.
    + subst ok. destruct (filter is_error (i :: issues)) eqn:Hf.
      * apply filter_is_error_nil in Hf. now rewrite Hf.
      * destruct (existsb is_error (i :: issues)) eqn:He; [reflexivity|].
        apply filter_is_error_nil in He. congruence.
    + eexists _, _. split.
      * rewrite !app_assoc. reflexivity.
      * rewrite <- app_assoc. apply report_partition.
Qed.

Lemma main_reports_every_issue_witness :
  exists ok issues,
    validate_file source_order (holding document_out_of_order)
      (Pathlib.Path_ "config.toml")
    = Ok (ok, issues) /\
    Some 1 = Some (if ok then 0 else 1).
Proof.
  destruct (main_reports_every_issue
              (Cli.Process ["validate_config.py"; "config.toml"] "/home/user"
                 (holding document_out_of_order) source_order)
              [report_line (out_of_range "api.timeout" 1 300);
               report_line (out_of_range "logging.max_files" 1 100);
               report_line (unknown_table "plugins");
               report_line no_default_dir;
               (Json.newline ++ "Summary: 2 errors, 2 warnings, 0 info messages")%string]
              (Some 1))
    as (ok & issues & Hv & Hcode & _).
  - discriminate.
  - reflexivity.
  - exists ok, issues. split; assumption.
Defined.

(** ** Values that make a routine raise *)

Section Crashes.

Variable order : list string -> list string.

Lemma network_rest_returns network :
  exists rest,
    Forall (fun i => path i <> "network.proxy_url") rest /\
    forall issues,
      (if_present "timeout_connect" (VDict network) (fun timeout_connect =>
         validate_integer_range "network.timeout_connect" timeout_connect 1 60) ;;
       if_present "timeout_read" (VDict network) (fun timeout_read =>
         validate_integer_range "network.timeout_read" timeout_read 1 300)) issues
      = Ok (tt, issues ++ rest).
Proof.
  set (m := bind _ _).
  assert (Hr : returns m).
  { apply returns_bind; [|intros _]; apply returns_if_present; intros v;
      apply returns_integer_range. }
  assert (He : emits (fun i => path i <> "network.proxy_url") m).
  { unfold m. located_auto; cbn; discriminate. }
  destruct Hr as [rest Hrest]. exists rest. split; [|exact Hrest].
  eapply emits_output; [exact He|]. unfold output, run. now rewrite Hrest.
Qed.

End Crashes.

(** The proxy URL of the network table: a string that begins with
    "http://" or "https://" gives no issue at "network.proxy_url", any
    other string gives exactly one ERROR "Invalid proxy URL" there, and a
    value that is not a string makes the routine raise [AttributeError]
    instead of reporting an issue. *)
Theorem proxy_url_checked network v :
  lookup "proxy_url" network = Some v ->
  match v with
  | VStr s =>
      exists out,
        output (validate_network (VDict network)) = Ok out /\
        ((exists rest, s = ("http://" ++ rest)%string \/ s = ("https://" ++ rest)%string) ->
         issues_at "network.proxy_url" out = []) /\
        (~ (exists rest, s = ("http://" ++ rest)%string \/ s = ("https://" ++ rest)%string) ->
         issues_at "network.proxy_url" out
         = [Issue ERROR "network.proxy_url" "Invalid proxy URL"])
  | _ => output (validate_network (VDict network)) = Raise AttributeError
  end.
Proof.
  intros Hv. unfold validate_network. rewrite (if_present_found _ _ _ _ Hv).
  destruct v; try reflexivity.
  destruct (network_rest_returns network) as (rest & Hpaths & Hrest).
  cbn [is_valid_url startswith_any existsb]. rewrite bind_lift_Ok, orb_false_r.
  assert (Hvalid : Str.startswith "http://" s || Str.startswith "https://" s = true <->
                   exists rest, s = ("http://" ++ rest)%string \/ s = ("https://" ++ rest)%string).
  { rewrite orb_true_iff, !startswith_spec. split.
    - intros [[r ->] | [r ->]]; eauto.
    - intros (r & [-> | ->]); eauto. }
  destruct (Str.startswith "http://" s || Str.startswith "https://" s) eqn:Hb;
    cbn [negb when_]; eexists;
    (split; [unfold output, run; unfold bind at 1;
             cbn [ret add_error append app]; rewrite Hrest; reflexivity|]).
  - split; [intros _ | intros Hn; exfalso; apply Hn, Hvalid; reflexivity].
    cbn [app]. now apply issues_at_none.
  - split; [intros Hy; apply Hvalid in Hy; discriminate | intros _].
    cbn [app]. change (issues_at "network.proxy_url" (?x :: rest))
      with (x :: issues_at "network.proxy_url" rest).
    now rewrite (issues_at_none _ rest).
Qed.

Lemma proxy_url_checked_witness :
  output (validate_network (VDict [("timeout_read", VInt 30); ("proxy_url", VInt 8080)]))
  = Raise AttributeError.
Proof.
  apply (proxy_url_checked [("timeout_read", VInt 30); ("proxy_url", VInt 8080)]
           (VInt 8080)).
  reflexivity.
Defined.

Section Raising.

Variable e : exn.

Lemma raises_bind_l (m : M unit) (k : unit -> M unit) : raises e m -> raises e (bind m k).
Proof. intros H issues. unfold bind. now rewrite H. Qed.

Lemma raises_bind_r (m : M unit) (k : unit -> M unit) :
  may_raise e m -> (forall u, raises e (k u)) -> raises e (bind m k).
Proof.
  intros Hm Hk issues. unfold bind.
  destruct (Hm issues) as [[issues' ->] | ->]; [apply Hk | reflexivity].
Qed.

Lemma may_raise_returns m : returns m -> may_raise e m.
Proof. intros [out H] issues. left. rewrite H. eauto. Qed.

Lemma may_raise_raises m : raises e m -> may_raise e m.
Proof. intros H issues. right. apply H. Qed.

Lemma may_raise_bind (m : M unit) (k : unit -> M unit) :
  may_raise e m -> (forall u, may_raise e (k u)) -> may_raise e (bind m k).
Proof.
  intros Hm Hk issues. unfold bind.
  destruct (Hm issues) as [[issues' ->] | ->]; [apply Hk | now right].
Qed.

Lemma may_raise_if_present k d body :
  (forall v, may_raise e (body v)) -> may_raise e (if_present k (VDict d) body).
Proof.
  intros Hb. destruct (lookup k d) as [v|] eqn:Hk.
  - rewrite (if_present_found _ _ _ _ Hk). apply Hb.
  - rewrite (if_present_missing _ _ _ Hk). apply may_raise_returns, returns_ret.
Qed.

Lemma may_raise_for_each {A} (l : list A) body :
  (forall x, may_raise e (body x)) -> may_raise e (for_each l body).
Proof.
  intros Hb. induction l as [|x l IH]; cbn [for_each].
  - apply may_raise_returns, returns_ret.
  - apply may_raise_bind; auto.
Qed.

End Raising.

Section EnumFields.

Variable order : list string -> list string.

Lemma may_raise_enum v S issue :
  may_raise TypeError (known <- lift (in_set v S) ;; when_ (negb known) (append issue)).
Proof.
  destruct v; cbn [in_set]; try rewrite bind_lift_Ok;
    try (apply may_raise_returns, returns_when, returns_append);
    apply may_raise_raises; intros issues; reflexivity.
Qed.

Lemma raises_enum v S issue :
  type_of v = Array \/ type_of v = Table ->
  raises TypeError (known <- lift (in_set v S) ;; when_ (negb known) (append issue)).
Proof. intros [H | H]; destruct v; try discriminate; intros issues; reflexivity. Qed.

Lemma returns_float_range path v lo hi : returns (validate_float_range path v lo hi).
Proof.
  unfold validate_float_range.
  destruct (negb (isinstance_int_float v)); [apply returns_append|].
  destruct (lt_float v (float_val lo) || gt_float v (float_val hi));
    [apply returns_append | apply returns_ret].
Qed.

End EnumFields.

Ltac enum_prefix :=
  first
    [ apply may_raise_if_present; intros ?
    | apply may_raise_enum
    | apply may_raise_returns, returns_integer_range
    | apply may_raise_returns, returns_float_range
    | apply may_raise_returns, returns_when, returns_append ].

(** A field that is tested for membership in a set of strings makes its
    routine raise [TypeError] when it holds an array or a table: the value
    cannot be hashed, and no issue is reported. The integers of the table
    have at most 4300 digits, so that the message of a field tested before
    it can be written. *)
Theorem unhashable_enum_value_raises order name routine field table v :
  printable (VDict table) = true ->
  In (name, routine) (sections order) ->
  In (name, field) enum_fields ->
  lookup field table = Some v ->
  type_of v = Array \/ type_of v = Table ->
  output (routine (VDict table)) = Raise TypeError.
Proof.
  intros _ Hsec Hf Hv Hty.
  assert (Hraises : raises TypeError (routine (VDict table)));
    [|unfold output, run; now rewrite Hraises].
  unfold enum_fields in Hf. cbn [In] in Hf.
  unfold sections in Hsec. cbn [In] in Hsec.
  repeat (destruct Hf as [Hf | Hf]; [inversion Hf; subst name field; clear Hf|]);
    try contradiction;
    repeat (destruct Hsec as [Hsec | Hsec];
            [try discriminate Hsec; inversion Hsec; subst routine; clear Hsec|]);
    try contradiction.
  - unfold validate_api, add_error, add_warning.
    apply raises_bind_r; [apply may_raise_returns|intros _].
    { apply returns_when, returns_append. }
    apply raises_bind_l. rewrite (if_present_found _ _ _ _ Hv). now apply raises_enum.
  - unfold validate_logging, add_error.
    apply raises_bind_l. rewrite (if_present_found _ _ _ _ Hv). now apply raises_enum.
  - unfold validate_logging, add_error.
    apply raises_bind_r; [repeat enum_prefix | intros _].
    apply raises_bind_l. rewrite (if_present_found _ _ _ _ Hv). now apply raises_enum.
  - unfold validate_session, add_error.
    apply raises_bind_r; [repeat enum_prefix | intros _].
    rewrite (if_present_found _ _ _ _ Hv). now apply raises_enum.
  - unfold validate_ui, add_error, add_warning.
    apply raises_bind_l. rewrite (if_present_found _ _ _ _ Hv). now apply raises_enum.
  - unfold validate_ui, add_error, add_warning.
    apply raises_bind_r; [repeat enum_prefix | intros _].
    apply raises_bind_l. rewrite (if_present_found _ _ _ _ Hv). now apply raises_enum.
  - unfold validate_response, add_error.
    do 2 (apply raises_bind_r; [repeat enum_prefix | intros _]).
    rewrite (if_present_found _ _ _ _ Hv). now apply raises_enum.
Qed.

Lemma unhashable_enum_value_raises_witness :
  output (validate_logging source_order
            (VDict [("level", VStr "verbose"); ("format", VList [VStr "json"])]))
  = Raise TypeError.
Proof.
  apply (unhashable_enum_value_raises source_order "logging"
           (validate_logging source_order) "format"
           [("level", VStr "verbose"); ("format", VList [VStr "json"])]
           (VList [VStr "json"])).
  - reflexivity.
  - cbn. tauto.
  - cbn. tauto.
  - reflexivity.
  - left. reflexivity.
Defined.

Section CommandElements.

Variable order : list string -> list string.
Hypothesis order_iterates : iterates order.

Lemma may_raise_scan_step dangerous cmd :
  may_raise TypeError
    (found <- lift (contains dangerous cmd) ;;
     when_ found
       (add_warning "tools.commands.allowed_commands"
          ("Potentially dangerous command: " ++ str cmd))).
Proof.
  destruct cmd; cbn [contains]; try rewrite bind_lift_Ok;
    try (apply may_raise_returns, returns_when, returns_append);
    apply may_raise_raises; intros issues; reflexivity.
Qed.

Lemma raises_scan_step dangerous cmd :
  scalar cmd = true ->
  raises TypeError
    (found <- lift (contains dangerous cmd) ;;
     when_ found
       (add_warning "tools.commands.allowed_commands"
          ("Potentially dangerous command: " ++ str cmd))).
Proof. intros H. destruct cmd; try discriminate; intros issues; reflexivity. Qed.

Lemma raises_scan cmds v :
  In v cmds -> scalar v = true -> raises TypeError (scan order cmds).
Proof.
  intros Hin Hv. unfold scan. induction cmds as [|cmd cmds IH]; [contradiction|].
  cbn [for_each]. destruct Hin as [-> | Hin].
  - apply raises_bind_l.
    destruct (order DANGEROUS_COMMANDS) as [|d ds] eqn:Hd.
    + pose proof (order_iterates DANGEROUS_COMMANDS) as Hp. rewrite Hd in Hp.
      apply Permutation_nil in Hp. discriminate.
    + cbn [for_each]. now apply raises_bind_l, raises_scan_step.
  - apply raises_bind_r; [|intros _; now apply IH].
    apply may_raise_for_each. intros d. apply may_raise_scan_step.
Qed.

End CommandElements.

(** An element of [allowed_commands] that is a number, a boolean or a date
    makes the routine raise [TypeError], whatever the other elements are:
    the substring test cannot be applied to it and no issue is reported. *)
Theorem non_iterable_command_raises order commands cmds v :
  iterates order ->
  lookup "allowed_commands" commands = Some (VList cmds) ->
  In v cmds ->
  scalar v = true ->
  output (validate_tools_commands order (VDict commands)) = Raise TypeError.
Proof.
  intros Hord Hcmds Hin Hv.
  assert (Hraises : raises TypeError (validate_tools_commands order (VDict commands)));
    [|unfold output, run; now rewrite Hraises].
  rewrite (tools_commands_split _ _ _ Hcmds).
  apply raises_bind_r; [|intros _; now apply (raises_scan order Hord cmds v)].
  apply may_raise_returns. destruct (timeout_check_returns commands) as [t Ht].
  now exists t.
Qed.

Lemma non_iterable_command_raises_witness :
  output (validate_tools_commands source_order
            (VDict [("allowed_commands", VList [VStr "ls"; VInt 7; VStr "rm"])]))
  = Raise TypeError.
Proof.
  apply (non_iterable_command_raises source_order
           [("allowed_commands", VList [VStr "ls"; VInt 7; VStr "rm"])]
           [VStr "ls"; VInt 7; VStr "rm"] (VInt 7)).
  - exact source_order_iterates.
  - reflexivity.
  - cbn. tauto.
  - reflexivity.
Defined.

(** ** Cross-validation by truth value *)

(** [cross_validate] tests truth values, not presence and not type: a rule
    is violated when its flag has any true value (such as 1 or a non-empty
    string) and the key it needs is absent or has a false value (such as
    the empty string). On tables it returns the warnings of the violated
    rules, logging first; when [logging] or [session] is not a table it
    raises [AttributeError]. *)
Theorem cross_validation_by_truth_value config :
  output (cross_validate config)
  = match table_or_empty config "logging", table_or_empty config "session" with
    | Some logging, Some session =>
        Ok ((if rule_violated logging "log_requests" "file" then [no_log_file] else [])
              ++ (if rule_violated session "auto_save" "default_dir"
                  then [no_default_dir] else []))
    | _, _ => Raise AttributeError
    end.
Proof.
  unfold output, run, cross_validate, table_or_empty, rule_violated, truthy_opt.
  unfold bind, lift, get_default, get.
  destruct (lookup "logging" config) as [[]|]; try reflexivity;
    destruct (lookup "session" config) as [[]|]; cbn [lookup];
    repeat match goal with
      | |- context [lookup ?k ?d] =>
          is_var d; destruct (lookup k d)
      end;
    repeat match goal with
      | |- context [truthy ?x] => is_var x; destruct (truthy x)
      end;
    reflexivity.
Qed.

(** ** The size pattern *)

Section SizeTexts.

Import SizePattern.

Lemma append_nil_r (s : string) : (s ++ "")%string = s.
Proof. induction s as [|c s IH]; cbn; [reflexivity | now rewrite IH]. Qed.

Lemma skip_stops p s : stops p s = true -> skip p s = s.
Proof. destruct s as [|c s]; cbn; [reflexivity|]. now destruct (p c). Qed.

Lemma skip_app p a b :
  all_chars p a = true -> stops p b = true -> skip p (a ++ b) = b.
Proof.
  intros Ha Hb. induction a as [|c a IH]; cbn in *; [now apply skip_stops|].
  apply andb_true_iff in Ha. destruct Ha as [-> Ha]. auto.
Qed.

Lemma skip_all p a : all_chars p a = true -> skip p a = "".
Proof.
  intros Ha. induction a as [|c a IH]; cbn in *; [reflexivity|].
  apply andb_true_iff in Ha. destruct Ha as [-> Ha]. auto.
Qed.

Lemma skip_split p s :
  exists a, s = (a ++ skip p s)%string /\ all_chars p a = true /\ stops p (skip p s) = true.
Proof.
  induction s as [|c s (a & Hs & Ha & Hstop)]; cbn.
  - exists "". auto.
  - destruct (p c) eqn:Hc.
    + exists (String c a). cbn. rewrite Hc, Ha. split; [now rewrite <- Hs | auto].
    + exists "". cbn. rewrite Hc. auto.
Qed.

Lemma all_chars_app p a b :
  all_chars p (a ++ b) = all_chars p a && all_chars p b.
Proof. induction a as [|c a IH]; cbn; [reflexivity|]. now rewrite IH, andb_assoc. Qed.

Lemma space_not_digit c :
  is_space c = true -> is_digit c = false /\ c <> "."%char.
Proof.
  destruct c as [[] [] [] [] [] [] [] []]; cbn; intros H; try discriminate H;
    (split; [reflexivity | discriminate]).
Qed.

Lemma at_end_spec s : at_end s = true <-> s = "" \/ s = Json.newline.
Proof.
  destruct s as [|c [|c' s]]; cbn.
  - tauto.
  - rewrite Nat.eqb_eq. split.
    + intros H. right. unfold Json.newline, Str.char. f_equal.
      rewrite <- (ascii_nat_embedding c), H. reflexivity.
    + intros [H | H]; [discriminate|]. injection H as ->. reflexivity.
  - split; [discriminate | intros [H | H]; discriminate].
Qed.

Lemma is_letter_spec up low c : is_letter up low c = true <-> c = up \/ c = low.
Proof. unfold is_letter. now rewrite orb_true_iff, !Ascii.eqb_eq. Qed.

End SizeTexts.

Section SizeGrammar.

Import SizePattern.

Lemma unit_known u :
  In u size_units ->
  stops is_space u = true /\ stops is_digit u = true /\ fraction u = u /\
  u <> "" /\ unit_ u = "" /\ unit_ (u ++ Json.newline) = Json.newline /\
  stops is_space (u ++ Json.newline) = true /\
  stops is_digit (u ++ Json.newline) = true /\
  fraction (u ++ Json.newline) = (u ++ Json.newline)%string.
Proof.
  unfold size_units. cbn [app flat_map In].
  intros H; repeat (destruct H as [<- | H]; [repeat split; discriminate|]);
    contradiction.
Qed.

(** What follows the digits of a size text neither begins with a digit nor
    with a dot, and matches the rest of the pattern. *)
Lemma size_rest blanks u tail :
  all_chars is_space blanks = true ->
  u = "" \/ In u size_units ->
  tail = "" \/ tail = Json.newline ->
  let rest := (blanks ++ u ++ tail)%string in
  stops is_digit rest = true /\ fraction rest = rest /\
  at_end (unit_ (skip is_space rest)) = true.
Proof.
  intros Hb Hu Ht rest. subst rest. repeat split.
  - destruct blanks as [|c b]; cbn.
    + destruct Hu as [-> | Hu]; [destruct Ht as [-> | ->]; reflexivity|].
      destruct (unit_known u Hu) as (_ & Hd & _ & _ & _ & _ & _ & Hdn & _).
      destruct Ht as [-> | ->]; [now rewrite append_nil_r | assumption].
    + cbn in Hb. apply andb_true_iff in Hb. destruct Hb as [Hc _].
      now rewrite (proj1 (space_not_digit c Hc)).
  - destruct blanks as [|c b].
    + cbn [String.append].
      destruct Hu as [-> | Hu]; [destruct Ht as [-> | ->]; reflexivity|].
      destruct (unit_known u Hu) as (_ & _ & Hf & _ & _ & _ & _ & _ & Hfn).
      destruct Ht as [-> | ->]; [now rewrite append_nil_r | assumption].
    + cbn in Hb. apply andb_true_iff in Hb. destruct Hb as [Hc _].
      destruct (space_not_digit c Hc) as [_ Hdot]. cbn.
      destruct (Ascii.eqb_spec c "."); [contradiction | reflexivity].
  - destruct Hu as [-> | Hu].
    + cbn [String.append]. rewrite skip_all; [reflexivity|].
      rewrite all_chars_app, Hb. destruct Ht as [-> | ->]; reflexivity.
    + destruct (unit_known u Hu) as (Hs & _ & _ & _ & Hun & Hunn & Hsn & _).
      destruct Ht as [-> | ->].
      * rewrite append_nil_r, (skip_app _ _ _ Hb Hs), Hun. reflexivity.
      * rewrite (skip_app _ _ _ Hb Hsn), Hunn. reflexivity.
Qed.

Lemma size_text_matches s : size_text s -> match_ s = true.
Proof.
  intros (whole & fr & blanks & u & tail & -> & Hne & Hw & Hf & Hb & Hu & Ht).
  destruct (size_rest blanks u tail Hb Hu Ht) as (Hstop & Hfrac & Hend).
  destruct whole as [|c w]; [contradiction|].
  cbn in Hw. apply andb_true_iff in Hw. destruct Hw as [Hc Hw].
  unfold match_. cbn [String.append digits]. rewrite Hc.
  destruct Hf as [-> | (d & -> & Hd & Hdigits)].
  - cbn [String.append]. rewrite (skip_app _ _ _ Hw Hstop), Hfrac. exact Hend.
  - rewrite (skip_app _ w); [|assumption|reflexivity].
    destruct d as [|c' d]; [contradiction|].
    cbn in Hdigits. apply andb_true_iff in Hdigits. destruct Hdigits as [Hc' Hdigits].
    cbn [String.append fraction digits]. rewrite Ascii.eqb_refl, Hc'.
    rewrite (skip_app _ _ _ Hdigits Hstop). exact Hend.
Qed.

Lemma fraction_split r :
  exists fr,
    r = (fr ++ fraction r)%string /\
    (fr = "" \/
     exists decimals, fr = ("." ++ decimals)%string /\ decimals <> "" /\
                      all_chars is_digit decimals = true).
Proof.
  destruct r as [|c r]; [exists ""; auto|]. cbn [fraction].
  destruct (Ascii.eqb_spec c ".") as [-> | _]; [|exists ""; auto].
  destruct r as [|c' r]; cbn [digits]; [exists ""; auto|].
  destruct (is_digit c') eqn:Hc'; [|exists ""; auto].
  destruct (skip_split is_digit r) as (a & Hr & Ha & _).
  exists ("." ++ String c' a)%string. split.
  - cbn. now rewrite <- Hr.
  - right. exists (String c' a). cbn. rewrite Hc', Ha. repeat split. discriminate.
Qed.

Lemma unit_split r :
  exists u, r = (u ++ unit_ r)%string /\ (u = "" \/ In u size_units).
Proof.
  destruct r as [|c r]; [exists ""; auto|]. cbn [unit_].
  destruct (is_letter "B" "b" c) eqn:HB.
  - apply is_letter_spec in HB. exists (String c ""). split; [reflexivity|].
    right. destruct HB as [-> | ->]; cbn; tauto.
  - destruct (is_letter "K" "k" c || is_letter "M" "m" c || is_letter "G" "g" c) eqn:HK;
      [|exists ""; auto].
    rewrite !orb_true_iff, !is_letter_spec in HK.
    destruct r as [|c' r].
    + exists (String c ""). split; [reflexivity|]. right.
      destruct HK as [[[-> | ->] | [-> | ->]] | [-> | ->]]; cbn; tauto.
    + destruct (is_letter "B" "b" c') eqn:HB'.
      * apply is_letter_spec in HB'. exists (String c (String c' "")).
        split; [reflexivity|]. right.
        destruct HK as [[[-> | ->] | [-> | ->]] | [-> | ->]];
          destruct HB' as [-> | ->]; cbn; tauto.
      * exists (String c ""). split; [reflexivity|]. right.
        destruct HK as [[[-> | ->] | [-> | ->]] | [-> | ->]]; cbn; tauto.
Qed.

Lemma matches_size_text s : match_ s = true -> size_text s.
Proof.
  unfold match_. destruct s as [|c s]; cbn [digits]; [discriminate|].
  destruct (is_digit c) eqn:Hc; [|discriminate].
  destruct (skip_split is_digit s) as (a & Hs & Ha & _).
  destruct (fraction_split (skip is_digit s)) as (fr & Hfr & Hf).
  destruct (skip_split is_space (fraction (skip is_digit s))) as (blanks & Hbl & Hb & _).
  destruct (unit_split (skip is_space (fraction (skip is_digit s)))) as (u & Hu & Hunit).
  intros Hend. apply at_end_spec in Hend.
  exists (String c a), fr, blanks, u,
    (unit_ (skip is_space (fraction (skip is_digit s)))).
  repeat split; try assumption; try discriminate.
  - rewrite <- Hu, <- Hbl, <- Hfr. cbn. now rewrite <- Hs.
  - cbn. now rewrite Hc, Ha.
Qed.

End SizeGrammar.

(** Among the ASCII texts, [SIZE_PATTERN] matches exactly those made of
    one or more digits, then possibly a dot with one or more digits, then
    any blanks, then possibly a unit B, K, KB, M, MB, G or GB in any case,
    then possibly one final newline. *)
Theorem size_pattern_grammar s :
  ascii_text s = true -> (SizePattern.match_ s = true <-> size_text s).
Proof. intros _. split; [apply matches_size_text | apply size_text_matches]. Qed.

Lemma size_pattern_grammar_witness :
  SizePattern.match_ "1.5 GB" = true <-> size_text "1.5 GB".
Proof. apply (size_pattern_grammar "1.5 GB"). reflexivity. Defined.

Section SizesOfOtherTypes.

Import SizePattern.

Lemma uint_digits d : all_chars is_digit (NilEmpty.string_of_uint d) = true.
Proof. induction d; cbn; auto. Qed.

Lemma uint_text d :
  NilZero.string_of_uint d <> "" /\ all_chars is_digit (NilZero.string_of_uint d) = true.
Proof.
  split.
  - destruct d; discriminate.
  - destruct d; try reflexivity; apply (uint_digits (_ d)).
Qed.

Lemma digits_match s : s <> "" -> all_chars is_digit s = true -> match_ s = true.
Proof.
  intros Hne Hd. apply size_text_matches. exists s, "", "", "", "".
  rewrite !append_nil_r. repeat split; auto.
Qed.

End SizesOfOtherTypes.

(** A size given as a value that is not a string is tested on its text,
    when the text can be written (no integer of more than 4300 digits in
    the value): an integer is a valid size exactly when it is not negative,
    and a boolean, an array or a table never is. *)
Theorem size_of_other_types v :
  printable v = true ->
  match v with
  | VInt n => is_valid_size v = (0 <=? n)
  | VBool _ | VList _ | VDict _ => is_valid_size v = false
  | _ => True
  end.
Proof.
  intros _.
  destruct v as [s | n | f | [] | d | l | d]; try exact I; try reflexivity.
  unfold is_valid_size. cbn [str repr]. unfold Str.of_Z.
  destruct n as [|p|p]; try reflexivity.
  cbn [Z.to_int NilZero.string_of_int]. change (0 <=? Z.pos p) with true.
  apply digits_match; apply uint_text.
Qed.

Lemma size_of_other_types_witness :
  is_valid_size (VInt 1048576) = true /\
  is_valid_size (VInt (-1)) = false /\
  is_valid_size (VList [VStr "10MB"]) = false.
Proof.
  split; [|split].
  - apply (size_of_other_types (VInt 1048576)). vm_compute. reflexivity.
  - apply (size_of_other_types (VInt (-1))). vm_compute. reflexivity.
  - apply (size_of_other_types (VList [VStr "10MB"])). reflexivity.
Defined.

(** ** Floats that are not numbers *)

Section NotANumber.

Lemma nan_ltb_l y : PrimFloat.ltb nan y = false.
Proof. rewrite ltb_spec. reflexivity. Qed.

Lemma nan_ltb_r x : PrimFloat.ltb x nan = false.
Proof.
  rewrite ltb_spec. change (Prim2SF nan) with S754_nan.
  destruct (Prim2SF x) as [| [] | | []]; reflexivity.
Qed.

End NotANumber.

(** A NaN passes every float range check: both comparisons with the bounds
    are false, so no issue is added whatever the bounds are. *)
Theorem nan_passes_float_range path text min_val max_val issues :
  validate_float_range path (VFloat (PyFloat nan text)) min_val max_val issues
  = Ok (tt, issues).
Proof.
  unfold validate_float_range. cbn [isinstance_int_float negb lt_float gt_float float_val].
  now rewrite nan_ltb_l, nan_ltb_r.
Qed.

(** ** The API key *)

(** An [api_key] in the api table, whatever its value, gives exactly one
    issue at "api.api_key", a WARNING, and it is the first issue of the
    section; without the key there is no issue at that path. *)
Theorem api_key_warned order api out :
  output (validate_api order (VDict api)) = Ok out ->
  let warning :=
    Issue WARNING "api.api_key"
      "API key should not be stored in config file. Use GEMINI_API_KEY environment variable."
  in
  match lookup "api_key" api with
  | Some _ => issues_at "api.api_key" out = [warning] /\ exists rest, out = warning :: rest
  | None => issues_at "api.api_key" out = []
  end.
Proof.
  intros Hout warning. unfold validate_api in Hout. cbn [contains] in Hout.
  rewrite bind_lift_Ok in Hout.
  apply (output_bind (fun i => i = warning) (fun i => path i <> "api.api_key")) in Hout.
  2: { unfold add_warning. emits_with ltac:(reflexivity). }
  2: { intros _. unfold add_error. located_auto; cbn; discriminate. }
  destruct Hout as (first & rest & Hfirst & _ & -> & _ & Hrest).
  rewrite issues_at_app, (issues_at_none _ rest Hrest), app_nil_r.
  unfold has_key in Hfirst. destruct (lookup "api_key" api).
  - apply Ok_inj in Hfirst. subst first. split; [reflexivity|].
    exists rest. reflexivity.
  - apply Ok_inj in Hfirst. now subst first.
Qed.

Lemma api_key_warned_witness :
  issues_at "api.api_key"
    [Issue WARNING "api.api_key"
       "API key should not be stored in config file. Use GEMINI_API_KEY environment variable.";
     out_of_range "api.timeout" 1 300]
  = [Issue WARNING "api.api_key"
       "API key should not be stored in config file. Use GEMINI_API_KEY environment variable."].
Proof.
  apply (api_key_warned source_order [("timeout", VInt 0); ("api_key", VStr "")]
           [Issue WARNING "api.api_key"
              "API key should not be stored in config file. Use GEMINI_API_KEY environment variable.";
            out_of_range "api.timeout" 1 300]).
  reflexivity.
Defined.

(** ** Structural warnings and the order of keys *)

Section KeyOrder.

Lemma existsb_permutation {A} (f : A -> bool) l l' :
  Permutation l l' -> existsb f l = existsb f l'.
Proof.
  induction 1 as [| x l l' _ IH | x y l | l l' l'' _ IH1 _ IH2]; cbn.
  - reflexivity.
  - now rewrite IH.
  - destruct (f x), (f y); reflexivity.
  - now rewrite IH1.
Qed.

Lemma filter_permutation {A} (f : A -> bool) l l' :
  Permutation l l' -> Permutation (filter f l) (filter f l').
Proof.
  induction 1 as [| x l l' _ IH | x y l | l l' l'' _ IH1 _ IH2]; cbn.
  - constructor.
  - destruct (f x); [now constructor | assumption].
  - destruct (f x), (f y); try reflexivity. constructor.
  - now rewrite IH1.
Qed.

End KeyOrder.

(** The issues with the empty path in the result of a parsed document are
    the warnings of its unknown top-level keys, one for each, in the order
    of the document; no other check reports at the empty path. *)
Theorem structural_warnings order fs p config ok issues :
  fs (Pathlib.str p) = Loaded config ->
  validate_file order fs p = Ok (ok, issues) ->
  issues_at "" issues
  = map unknown_table
      (filter (fun key => negb (Str.mem key valid_tables)) (keys config)).
Proof.
  intros Hfs H. apply (validate_file_parts order _ _ _ _ _ Hfs) in H.
  destruct H as (structural & parts & cross & Hs & Hparts & Hcross & -> & _).
  rewrite output_structure in Hs. apply Ok_inj in Hs. subst structural.
  rewrite !issues_at_app.
  rewrite (issues_at_none _ (List.concat parts)), (issues_at_none _ cross).
  - rewrite !app_nil_r. apply issues_at_all.
    apply Forall_forall. intros i Hi. apply in_map_iff in Hi.
    now destruct Hi as (key & <- & _).
  - eapply emits_output; [apply located_cross | eassumption].
  - eapply (located_parts order); eassumption.
Qed.

Lemma structural_warnings_witness :
  issues_at ""
    [unknown_table "plugins";
     out_of_range "api.timeout" 1 300;
     out_of_range "logging.max_files" 1 100;
     no_default_dir]
  = map unknown_table
      (filter (fun key => negb (Str.mem key valid_tables)) (keys document_out_of_order)).
Proof.
  apply (structural_warnings source_order (holding document_out_of_order)
           (Pathlib.Path_ "config.toml") document_out_of_order false);
    reflexivity.
Defined.

(** The order of the top-level keys of a document changes neither the
    verdict nor the issues found, only the order of the warnings for
    unknown keys: a document with the same entries in another order gets
    the same verdict and a permutation of the issues. *)
Theorem key_order_irrelevant order p config config' ok issues :
  NoDup (keys config) ->
  Permutation config config' ->
  validate_file order (holding config) p = Ok (ok, issues) ->
  exists issues',
    validate_file order (holding config') p = Ok (ok, issues') /\
    Permutation issues issues'.
Proof.
  intros Hnd Hperm H.
  apply (validate_file_parts order _ p config) in H; [|reflexivity].
  destruct H as (structural & parts & cross & Hs & Hparts & Hcross & -> & ->).
  rewrite output_structure in Hs. apply Ok_inj in Hs. subst structural.
  assert (Hstruct : Permutation
            (map unknown_table
               (filter (fun key => negb (Str.mem key valid_tables)) (keys config)))
            (map unknown_table
               (filter (fun key => negb (Str.mem key valid_tables)) (keys config')))).
  { apply Permutation_map, filter_permutation. unfold keys. now apply Permutation_map. }
  eexists. split.
  - apply (validate_file_parts order _ p config'); [reflexivity|].
    exists (map unknown_table
              (filter (fun key => negb (Str.mem key valid_tables)) (keys config'))),
      parts, cross.
    split; [apply output_structure|]. split; [|split; [|split; [reflexivity|]]].
    + eapply Forall2_impl_in; [|exact Hparts].
      intros sec part _ Hpart. unfold dispatch in *.
      now rewrite <- (if_present_same_lookup _ _ _ _
                        (lookup_permutation (fst sec) _ _ Hnd Hperm)).
    + rewrite <- (cross_validate_same_lookup config config'); [assumption | |];
        now apply lookup_permutation.
    + f_equal. apply existsb_permutation. now apply Permutation_app_tail.
  - now apply Permutation_app_tail.
Qed.

Lemma key_order_irrelevant_witness :
  exists issues',
    validate_file source_order
      (holding [("api", VDict [("timeout", VInt 0)]); ("plugins", VInt 1)])
      (Pathlib.Path_ "config.toml")
    = Ok (false, issues') /\
    Permutation [unknown_table "plugins"; out_of_range "api.timeout" 1 300] issues'.
Proof.
  apply (key_order_irrelevant source_order (Pathlib.Path_ "config.toml")
           [("plugins", VInt 1); ("api", VDict [("timeout", VInt 0)])]
           [("api", VDict [("timeout", VInt 0)]); ("plugins", VInt 1)]).
  - repeat constructor; cbn; intuition discriminate.
  - apply perm_swap.
  - reflexivity.
Defined.

(** ** Per-model settings *)

Section Models.

Lemma returns_for_each_in {A} (l : list A) body :
  (forall x, In x l -> returns (body x)) -> returns (for_each l body).
Proof.
  induction l as [|x l IH]; intros Hb; cbn [for_each].
  - apply returns_ret.
  - apply returns_bind; [apply Hb; now left | intros _; apply IH; intros; apply Hb; now right].
Qed.

Lemma may_raise_if_present_any k v body :
  (forall x, may_raise TypeError (body x)) -> may_raise TypeError (if_present k v body).
Proof.
  intros Hb. destruct v; try (apply may_raise_raises; intros issues; reflexivity).
  - unfold if_present. cbn [contains]. rewrite bind_lift_Ok.
    destruct (Str.contains k s); cbn [when_].
    + apply may_raise_raises. intros issues. reflexivity.
    + apply may_raise_returns, returns_ret.
  - unfold if_present. cbn [contains]. rewrite bind_lift_Ok.
    destruct (existsb (eq_str k) elems); cbn [when_].
    + apply may_raise_raises. intros issues. reflexivity.
    + apply may_raise_returns, returns_ret.
  - now apply may_raise_if_present.
Qed.

Lemma may_raise_model (entry : string * value) :
  may_raise TypeError
    (let '(model_name, config) := entry in
     if_present "temperature" config (fun temperature =>
       validate_float_range ("models." ++ model_name ++ ".temperature") temperature
         f0_0 f2_0) ;;
     if_present "max_tokens" config (fun max_tokens =>
       validate_integer_range ("models." ++ model_name ++ ".max_tokens") max_tokens
         1 100000)).
Proof.
  destruct entry as [model_name config].
  apply may_raise_bind; [|intros _]; apply may_raise_if_present_any; intros x;
    apply may_raise_returns; [apply returns_float_range | apply returns_integer_range].
Qed.

End Models.

(** In the models table, when every entry is a table the routine returns,
    and each of its issues lies under "models."; an entry that is a
    number, a boolean or a date makes it raise [TypeError]. *)
Theorem models_entries_checked models :
  ((forall name v, In (name, v) models -> type_of v = Table) ->
   exists out,
     output (validate_models (VDict models)) = Ok out /\ Forall (under "models") out) /\
  (forall name v,
      In (name, v) models -> scalar v = true ->
      output (validate_models (VDict models)) = Raise TypeError).
Proof.
  split.
  - intros Htables.
    assert (Hr : returns (validate_models (VDict models))).
    { unfold validate_models. cbn [items]. rewrite bind_lift_Ok.
      apply returns_for_each_in. intros [name v] Hin.
      specialize (Htables _ _ Hin). destruct v; try discriminate.
      apply returns_bind; [|intros _]; apply returns_if_present; intros x;
        [apply returns_float_range | apply returns_integer_range]. }
    destruct (returns_output _ Hr) as [out Hout]. exists out. split; [assumption|].
    destruct (emits_output _ _ _ (section_models (VDict models)) Hout) as [HF _].
    eapply Forall_impl; [|exact HF]. now intros i [Hi _].
  - intros name v Hin Hv.
    assert (Hraises : raises TypeError (validate_models (VDict models)));
      [|unfold output, run; now rewrite Hraises].
    unfold validate_models. cbn [items]. rewrite bind_lift_Ok.
    induction models as [|entry models IH]; [contradiction|].
    cbn [for_each]. destruct Hin as [-> | Hin].
    + apply raises_bind_l. destruct v; try discriminate; intros issues; reflexivity.
    + apply raises_bind_r; [apply may_raise_model | intros _; now apply IH].
Qed.

Lemma models_entries_checked_witness :
  output (validate_models
            (VDict [("fast", VDict [("temperature", VInt 3)]); ("slow", VInt 1)]))
  = Raise TypeError.
Proof.
  destruct (models_entries_checked
              [("fast", VDict [("temperature", VInt 3)]); ("slow", VInt 1)])
    as [_ Hscalar].
  apply (Hscalar "slow" (VInt 1)).
  - cbn. tauto.
  - reflexivity.
Defined.

(** ** Boolean fields of the sections *)

Section BooleanSections.

Lemma bool_fields_at section fields table field v :
  NoDup fields -> In field fields -> lookup field table = Some v ->
  issues_at (section ++ "." ++ field)
    (flat_map (bool_field_issues section table) fields)
  = if isinstance_bool v then []
    else [Issue ERROR (section ++ "." ++ field) "Must be true or false"].
Proof.
  intros Hnd Hin Hv.
  rewrite (issues_at_flat_map (fun f => ("." ++ f)%string) section
             (bool_field_issues section table) fields field).
  - unfold bool_field_issues. rewrite Hv. reflexivity.
  - intros f. unfold bool_field_issues.
    destruct (lookup f table) as [w|]; [destruct (isinstance_bool w)|];
      repeat constructor.
  - apply Injective_map_NoDup; [|assumption].
    intros a b E. now injection E.
  - assumption.
Qed.

Lemma bool_fields_output section fields table :
  output (validate_bool_fields section fields (VDict table))
  = Ok (flat_map (bool_field_issues section table) fields).
Proof. unfold output, run. now rewrite bool_fields_run. Qed.

Lemma emits_range_field name table p lo hi :
  emits (fun i => path i = p)
    (if_present name (VDict table) (fun v => validate_integer_range p v lo hi)).
Proof.
  apply emits_if_present. intros v. apply emits_integer_range. intros msg. reflexivity.
Qed.

Lemma emits_bool_fields section fields table :
  emits (fun _ => True) (validate_bool_fields section fields (VDict table)).
Proof.
  unfold validate_bool_fields. apply emits_for_each. intros f _.
  apply emits_if_present. intros w. apply emits_boolean. intros msg. exact I.
Qed.

Lemma repl_bool_field table field v :
  In field ["colored_prompt"; "welcome_banner"; "vi_mode"; "multiline_mode"] ->
  lookup field table = Some v ->
  exists out,
    output (validate_repl (VDict table)) = Ok out /\
    issues_at ("repl." ++ field) out
    = if isinstance_bool v then []
      else [Issue ERROR ("repl." ++ field) "Must be true or false"].
Proof.
  intros Hin Hv.
  assert (Hr : returns (validate_repl (VDict table))).
  { apply (robust_routine_returns source_order ("repl", validate_repl)); cbn; tauto. }
  destruct (returns_output _ Hr) as [out Hout]. exists out. split; [assumption|].
  unfold validate_repl in Hout.
  apply (output_bind (fun i => path i = "repl.history_size") (fun _ => True)) in Hout;
    [|apply emits_range_field|].
  2: { intros _. apply emits_bind.
       - eapply emits_any. apply emits_range_field.
       - intros _. apply emits_bool_fields. }
  destruct Hout as (o1 & rest & _ & Hrest & -> & H1 & _).
  apply (output_bind (fun i => path i = "repl.auto_save_interval") (fun _ => True))
    in Hrest; [|apply emits_range_field|].
  2: { intros _. apply emits_bool_fields. }
  destruct Hrest as (o2 & o3 & _ & Hbools & -> & H2 & _).
  rewrite bool_fields_output in Hbools. apply Ok_inj in Hbools. subst o3.
  rewrite !issues_at_app, (issues_at_none _ o1), (issues_at_none _ o2).
  - cbn [app]. apply (bool_fields_at "repl" _ table field v); [|assumption..].
    repeat constructor; cbn; intuition discriminate.
  - eapply Forall_impl; [|exact H2]. intros i ->.
    cbn [In] in Hin. intuition (subst; discriminate).
  - eapply Forall_impl; [|exact H1]. intros i ->.
    cbn [In] in Hin. intuition (subst; discriminate).
Qed.

Lemma security_bool_field table field v :
  In field ["mask_api_key"; "audit_tools"; "validate_ssl"; "sanitize_logs"] ->
  lookup field table = Some v ->
  exists out,
    output (validate_security (VDict table)) = Ok out /\
    issues_at ("security." ++ field) out
    = if isinstance_bool v then []
      else [Issue ERROR ("security." ++ field) "Must be true or false"].
Proof.
  intros Hin Hv. unfold validate_security. eexists. split; [apply bool_fields_output|].
  apply (bool_fields_at "security" _ table field v); [|assumption..].
  repeat constructor; cbn; intuition discriminate.
Qed.

Lemma debug_bool_field table field v :
  In field ["show_raw_api_calls"; "save_recordings"; "verbose_errors"] ->
  lookup field table = Some v ->
  exists out,
    output (validate_debug (VDict table)) = Ok out /\
    issues_at ("debug." ++ field) out
    = if isinstance_bool v then []
      else [Issue ERROR ("debug." ++ field) "Must be true or false"].
Proof.
  intros Hin Hv.
  assert (Hr : returns (validate_debug (VDict table))).
  { apply (robust_routine_returns source_order ("debug", validate_debug)); cbn; tauto. }
  destruct (returns_output _ Hr) as [out Hout]. exists out. split; [assumption|].
  unfold validate_debug in Hout.
  apply (output_bind (fun _ => True) (fun i => path i = "debug.mock_delay_ms")) in Hout.
  2: { apply emits_bool_fields. }
  2: { intros _. apply emits_range_field. }
  destruct Hout as (o1 & o2 & Hbools & _ & -> & _ & H2).
  rewrite bool_fields_output in Hbools. apply Ok_inj in Hbools. subst o1.
  rewrite issues_at_app, (issues_at_none _ o2), app_nil_r.
  - apply (bool_fields_at "debug" _ table field v); [|assumption..].
    repeat constructor; cbn; intuition discriminate.
  - eapply Forall_impl; [|exact H2]. intros i ->.
    cbn [In] in Hin. intuition (subst; discriminate).
Qed.

End BooleanSections.

(** C5. A value that is not a boolean, the integer 1 and the string "true"
    among them, gives exactly one ERROR "Must be true or false" at the
    field's path, and a boolean gives no issue; the value is tested as it
    is, nothing is converted. So it is for each boolean field of
    [validate_repl], [validate_security] and [validate_debug], whatever
    else the table holds, for the loop over boolean fields they share, and
    for each entry of [validate_features]. *)
Theorem boolean_check_strict path v issues :
  (type_of v <> Boolean ->
     validate_boolean path v issues
     = Ok (tt, issues ++ [Issue ERROR path "Must be true or false"])) /\
  (type_of v = Boolean -> validate_boolean path v issues = Ok (tt, issues)) /\
  validate_boolean path (VInt 1) issues
    = Ok (tt, issues ++ [Issue ERROR path "Must be true or false"]) /\
  validate_boolean path (VStr "true") issues
    = Ok (tt, issues ++ [Issue ERROR path "Must be true or false"]) /\
  (forall section fields table field,
      NoDup fields -> In field fields -> lookup field table = Some v ->
      exists out,
        output (validate_bool_fields section fields (VDict table)) = Ok out /\
        issues_at (section ++ "." ++ field) out
        = if isinstance_bool v then []
          else [Issue ERROR (section ++ "." ++ field) "Must be true or false"]) /\
  (forall table feature,
      NoDup (keys table) -> In (feature, v) table ->
      exists out,
        output (validate_features (VDict table)) = Ok out /\
        issues_at ("features." ++ feature) out
        = if isinstance_bool v then []
          else [Issue ERROR ("features." ++ feature) "Must be true or false"]) /\
  (forall table field,
      In field ["colored_prompt"; "welcome_banner"; "vi_mode"; "multiline_mode"] ->
      lookup field table = Some v ->
      exists out,
        output (validate_repl (VDict table)) = Ok out /\
        issues_at ("repl." ++ field) out
        = if isinstance_bool v then []
          else [Issue ERROR ("repl." ++ field) "Must be true or false"]) /\
  (forall table field,
      In field ["mask_api_key"; "audit_tools"; "validate_ssl"; "sanitize_logs"] ->
      lookup field table = Some v ->
      exists out,
        output (validate_security (VDict table)) = Ok out /\
        issues_at ("security." ++ field) out
        = if isinstance_bool v then []
          else [Issue ERROR ("security." ++ field) "Must be true or false"]) /\
  (forall table field,
      In field ["show_raw_api_calls"; "save_recordings"; "verbose_errors"] ->
      lookup field table = Some v ->
      exists out,
        output (validate_debug (VDict table)) = Ok out /\
        issues_at ("debug." ++ field) out
        = if isinstance_bool v then []
          else [Issue ERROR ("debug." ++ field) "Must be true or false"]).
Proof.
  split; [|split; [|split; [|split; [|split; [|split; [|split; [|split]]]]]]];
    try reflexivity.
  - destruct v; cbn; intros H; try reflexivity; congruence.
  - destruct v; cbn; intros H; try discriminate. reflexivity.
  - intros section fields table field Hnd Hin Hv.
    eexists. split; [apply bool_fields_output|]. now apply bool_fields_at.
  - intros table feature Hnd Hin.
    eexists. split; [unfold output, run; now rewrite features_run|].
    cbn [app].
    change (issues_at ("features." ++ feature))
      with (issues_at ("features." ++ fst (feature, v))).
    rewrite (issues_at_flat_map fst "features."
               (fun kv => if isinstance_bool (snd kv) then []
                          else [not_boolean ("features." ++ fst kv)])
               table (feature, v)).
    + reflexivity.
    + intros [f w]. cbn [fst snd]. destruct (isinstance_bool w); repeat constructor.
    + exact Hnd.
    + assumption.
  - intros table field. apply repl_bool_field.
  - intros table field. apply security_bool_field.
  - intros table field. apply debug_bool_field.
Qed.

Lemma boolean_check_strict_witness :
  validate_boolean "repl.vi_mode" (VInt 1) []
  = Ok (tt, [Issue ERROR "repl.vi_mode" "Must be true or false"]) /\
  (exists out,
      output (validate_features (VDict [("streaming", VBool true); ("beta", VInt 1)]))
      = Ok out /\
      issues_at "features.beta" out
      = [Issue ERROR "features.beta" "Must be true or false"]) /\
  (exists out,
      output (validate_repl (VDict [("history_size", VInt (-1)); ("vi_mode", VInt 1)]))
      = Ok out /\
      issues_at "repl.vi_mode" out
      = [Issue ERROR "repl.vi_mode" "Must be true or false"]) /\
  (exists out,
      output (validate_security (VDict [("validate_ssl", VInt 1)])) = Ok out /\
      issues_at "security.validate_ssl" out
      = [Issue ERROR "security.validate_ssl" "Must be true or false"]) /\
  (exists out,
      output (validate_debug (VDict [("verbose_errors", VInt 1); ("mock_delay_ms", VInt 9000)]))
      = Ok out /\
      issues_at "debug.verbose_errors" out
      = [Issue ERROR "debug.verbose_errors" "Must be true or false"]).
Proof.
  destruct (boolean_check_strict "repl.vi_mode" (VInt 1) [])
    as (Hstrict & _ & _ & _ & _ & Hfeatures & Hrepl & Hsecurity & Hdebug).
  split; [|split; [|split; [|split]]].
  - apply Hstrict. discriminate.
  - apply (Hfeatures [("streaming", VBool true); ("beta", VInt 1)] "beta").
    + repeat constructor; cbn; intuition discriminate.
    + cbn. tauto.
  - apply (Hrepl [("history_size", VInt (-1)); ("vi_mode", VInt 1)] "vi_mode").
    + cbn. tauto.
    + reflexivity.
  - apply (Hsecurity [("validate_ssl", VInt 1)] "validate_ssl").
    + cbn. tauto.
    + reflexivity.
  - apply (Hdebug [("verbose_errors", VInt 1); ("mock_delay_ms", VInt 9000)]
             "verbose_errors").
    + cbn. tauto.
    + reflexivity.
Defined.
